(** * The authentication dispatch layer of SLURM (src/common/slurm_auth.c)

    A shallow embedding of [slurm_auth.c]: the configuration cache, the
    authentication context with its table of nine plugin entry points,
    the lazily built global context, the explicit-context bindings
    [c_slurm_auth_*] and the global bindings [g_slurm_auth_*].

    The C code is sequential, stateful and fallible, and is modelled so:
    - the process state (the statics [g_context] and [conf], the heap
      cells holding contexts, and the trace of calls that left this
      file) is a record threaded through a small state monad;
    - a call through a null function pointer, or a dereference of a
      null or dangling context pointer, is undefined behaviour in C and
      is the outcome [Crash] here;
    - what the collaborators answer (the configuration reader, the
      plugin rack, the symbol table and the functions of the loaded
      plugin, [strdup]) is a field of a [World] record, so that every
      theorem holds whatever they answer; the two helpers whose effect
      on this file's data matters, [xmalloc] and [plugin_get_syms], are
      written out.

    Logging calls ([verbose], [debug], [error]) and the lock/unlock pair
    around the configuration cache have no effect on the values computed
    by a single thread and are left out. *)

From stdpp Require Import base option list strings gmap.
From Stdlib Require Import ZArith.
Open Scope Z_scope.

(** ** Scalars, pointers and constants *)

(** [void *], [Buf], [FILE *], [plugrack_t], [plugin_handle_t] and the
    function pointers of the operation table are addresses; the null
    pointer is address zero. *)
Abbreviation ptr := Z (only parsing).

Definition NULL : ptr := 0.

(** The C test [if ( p )] on a pointer. *)
Definition non_null (p : ptr) : bool := negb (p =? NULL).

(** Modelled from the spec: the header that defines the return codes is
    not among the sources. The success code, with the value SLURM gives
    it; the theorems only use that it differs from the failure code. *)
Definition SLURM_SUCCESS : Z := 0.

(** Modelled from the spec: the failure code, from the same header. *)
Definition SLURM_ERROR : Z := -1.

(** Modelled from the spec: the "nobody" identity of slurm_auth.h, which
    is not among the sources. *)
Definition SLURM_AUTH_NOBODY : Z := 99.

(** Modelled from the spec: the invalid plugin handle of plugin.h, which
    is not among the sources; a null handle. *)
Definition PLUGIN_INVALID_HANDLE : ptr := NULL.

(** Modelled from the spec: the least restrictive load policy of
    plugrack.h, which is not among the sources. *)
Definition PLUGRACK_PARANOIA_NONE : Z := 0.

(** ** Data model *)

(** [slurm_auth_ops_t]: nine function pointers, in the order of the
    structure declaration. *)
Record slurm_auth_ops_t := mk_ops {
  alloc : ptr;
  free : ptr;
  activate : ptr;
  verify : ptr;
  get_uid : ptr;
  get_gid : ptr;
  pack : ptr;
  unpack : ptr;
  print : ptr
}.

(** The table seen as the array of nine pointers that [plugin_get_syms]
    fills. *)
Definition ops_slots (o : slurm_auth_ops_t) : list ptr :=
  [alloc o; free o; activate o; verify o; get_uid o;
   get_gid o; pack o; unpack o; print o].

Definition ops_of_slots (l : list ptr) : slurm_auth_ops_t :=
  let at_ i := default NULL (l !! i) in
  mk_ops (at_ 0%nat) (at_ 1%nat) (at_ 2%nat) (at_ 3%nat) (at_ 4%nat)
         (at_ 5%nat) (at_ 6%nat) (at_ 7%nat) (at_ 8%nat).

(** Number of entry points that are present in a table. *)
Definition populated (o : slurm_auth_ops_t) : nat :=
  length (filter (λ p, p ≠ NULL) (ops_slots o)).

(** A table as [xmalloc] leaves it: all bytes zero. *)
Definition ops_zero : slurm_auth_ops_t :=
  mk_ops NULL NULL NULL NULL NULL NULL NULL NULL NULL.

(** [struct slurm_auth_context]. The string [auth_type] is owned by the
    context (it is the [strdup] copy). *)
Record slurm_auth_context := mk_context {
  auth_type : string;
  plugin_list : ptr;
  cur_plugin : ptr;
  ops : slurm_auth_ops_t
}.

(** The three fields of [slurm_ctl_conf_t] this file reads. A [char *]
    field is [None] when it is the null pointer. *)
Record slurm_ctl_conf_t := mk_conf {
  slurmd_port : Z;
  plugindir : option string;
  authtype : option string
}.

(** Calls that leave this file, in the order they are made. *)
Inductive event :=
  | ev_read_slurm_conf_ctl
  | ev_plugrack_create (rack : ptr)
  | ev_plugrack_set_major_type (rack : ptr) (major : string)
  | ev_plugrack_set_paranoia (rack : ptr) (flags : Z) (uid : Z)
  | ev_plugrack_read_dir (rack : ptr) (dir : option string)
  | ev_plugrack_use_by_type (rack : ptr) (type : string) (plug : ptr)
  | ev_plugin_get_syms (plug : ptr) (count : Z)
  | ev_plugrack_destroy (rack : ptr) (rc : Z)
  | ev_call (fn : ptr) (args : list Z).

(** The process state: the two statics of the file, the live context
    objects by address, and the trace (oldest event first). *)
Record State := mk_state {
  g_context : ptr;
  conf : slurm_ctl_conf_t;
  heap : gmap Z slurm_auth_context;
  trace : list event
}.

(** What the collaborators answer:
    - [w_read_slurm_conf_ctl c]: the configuration structure after
      [read_slurm_conf_ctl] has run on [c];
    - [w_strdup_ok]: whether [strdup] finds memory for the copy;
    - [w_plugrack_create]: the new rack, or [NULL];
    - [w_plugrack_use_by_type rack type]: the handle of the plugin of
      that type, or [PLUGIN_INVALID_HANDLE];
    - [w_dlsym plug name]: the address of the symbol [name] in the
      loaded plugin [plug], or [NULL];
    - [w_plugrack_destroy rack]: the return code of [plugrack_destroy];
    - [w_mech fn args]: what the plugin function at address [fn]
      returns on [args]. *)
Record World := mk_world {
  w_read_slurm_conf_ctl : slurm_ctl_conf_t → slurm_ctl_conf_t;
  w_strdup_ok : bool;
  w_plugrack_create : ptr;
  w_plugrack_use_by_type : ptr → string → ptr;
  w_dlsym : ptr → string → ptr;
  w_plugrack_destroy : ptr → Z;
  w_mech : ptr → list Z → Z
}.

(** ** The monad of C computations *)

Inductive outcome (A : Type) :=
  | Ret (a : A) (s : State)
  | Crash.
Arguments Ret {A} a s.
Arguments Crash {A}.

Definition M (A : Type) : Type := State → outcome A.

#[export] Instance M_ret : MRet M := λ A a s, Ret a s.
#[export] Instance M_bind : MBind M := λ A B f m s,
  match m s with
  | Ret a s' => f a s'
  | Crash => Crash
  end.

Definition get_state : M State := λ s, Ret s s.
Definition crash {A} : M A := λ _, Crash.

(** The state after one more outside call. *)
Definition logged (e : event) (s : State) : State :=
  mk_state (g_context s) (conf s) (heap s) (trace s ++ [e]).

Definition log (e : event) : M unit := λ s, Ret () (logged e s).

Definition set_conf (c : slurm_ctl_conf_t) : M unit :=
  λ s, Ret () (mk_state (g_context s) c (heap s) (trace s)).

Definition set_g_context (p : ptr) : M unit :=
  λ s, Ret () (mk_state p (conf s) (heap s) (trace s)).

(** [*c] for a context pointer. *)
Definition load (c : ptr) : M slurm_auth_context :=
  λ s, match heap s !! c with
       | Some x => Ret x s
       | None => Crash
       end.

(** The state with the cell at [c] holding [x]. *)
Definition poke (c : ptr) (x : slurm_auth_context) (s : State) : State :=
  mk_state (g_context s) (conf s) (<[c := x]> (heap s)) (trace s).

(** [*c = x] for a context pointer. *)
Definition store (c : ptr) (x : slurm_auth_context) : M unit :=
  λ s, match heap s !! c with
       | Some _ => Ret () (poke c x s)
       | None => Crash
       end.

(** Modelled from the spec: [xmalloc] lives in xmalloc.c, which is not
    among the sources. [xmalloc( sizeof( struct slurm_auth_context ) )]
    allocates a context: it yields a non-null address that was not in
    use, holding a zeroed structure. *)
Definition xmalloc_context : M ptr :=
  λ s, let a := fresh ({[NULL]} ∪ dom (heap s)) in
       Ret a (poke a (mk_context "" NULL NULL ops_zero) s).

(** The state with the cell at [c] released. *)
Definition release (c : ptr) (s : State) : State :=
  mk_state (g_context s) (conf s) (delete c (heap s)) (trace s).

(** [xfree( c )] for a context pointer. *)
Definition xfree_context (c : ptr) : M unit :=
  λ s, match heap s !! c with
       | Some _ => Ret () (release c s)
       | None => Crash
       end.

(** A call through the function pointer [fn] of the table, with the
    arguments [args]. *)
Definition invoke (w : World) (fn : ptr) (args : list Z) : M Z :=
  if non_null fn then log (ev_call fn args);; mret (w_mech w fn args)
  else crash.

(** Assignments to one field of a context, [c->field = v]. *)
Definition with_auth_type (v : string) (x : slurm_auth_context) :=
  mk_context v (plugin_list x) (cur_plugin x) (ops x).
Definition with_plugin_list (v : ptr) (x : slurm_auth_context) :=
  mk_context (auth_type x) v (cur_plugin x) (ops x).
Definition with_cur_plugin (v : ptr) (x : slurm_auth_context) :=
  mk_context (auth_type x) (plugin_list x) v (ops x).
Definition with_ops (v : slurm_auth_ops_t) (x : slurm_auth_context) :=
  mk_context (auth_type x) (plugin_list x) (cur_plugin x) v.

Definition assign (c : ptr) (f : slurm_auth_context → slurm_auth_context) : M unit :=
  x ← load c; store c (f x).

(** ** The configuration cache *)

(** [get_plugin_dir]: read the configuration while [slurmd_port] is
    zero, default the plugin directory when it is null, return it. *)
Definition get_plugin_dir (w : World) : M (option string) :=
  s ← get_state;
  (if slurmd_port (conf s) =? 0
   then log ev_read_slurm_conf_ctl;; set_conf (w_read_slurm_conf_ctl w (conf s))
   else mret ());;
  s ← get_state;
  match plugindir (conf s) with
  | None => set_conf (mk_conf (slurmd_port (conf s)) (Some "/usr/local/lib") (authtype (conf s)))
  | Some _ => mret ()
  end;;
  s ← get_state;
  mret (plugindir (conf s)).

(** [get_auth_type]: the same for the authentication type. *)
Definition get_auth_type (w : World) : M (option string) :=
  s ← get_state;
  (if slurmd_port (conf s) =? 0
   then log ev_read_slurm_conf_ctl;; set_conf (w_read_slurm_conf_ctl w (conf s))
   else mret ());;
  s ← get_state;
  match authtype (conf s) with
  | None => set_conf (mk_conf (slurmd_port (conf s)) (plugindir (conf s)) (Some "auth/none"))
  | Some _ => mret ()
  end;;
  s ← get_state;
  mret (authtype (conf s)).

(** ** Resolving the operations *)

(** The names looked up in the plugin, in the order of the fields of
    [slurm_auth_ops_t]. *)
Definition syms : list string :=
  ["slurm_auth_alloc"; "slurm_auth_free"; "slurm_auth_activate";
   "slurm_auth_verify"; "slurm_auth_get_uid"; "slurm_auth_get_gid";
   "slurm_auth_pack"; "slurm_auth_unpack"; "slurm_auth_print"].

Definition n_syms : Z := Z.of_nat (length syms).

(** Modelled from the spec: [plugin_get_syms] lives in plugin.c, which is
    not among the sources. It resolves each requested name in the
    plugin, stores what it finds (null for a name the plugin lacks) in
    the slot of the same index, and returns how many names resolved. *)
Definition plugin_get_syms (w : World) (plug : ptr) (names : list string)
  : Z * list ptr :=
  let ptrs := map (w_dlsym w plug) names in
  (Z.of_nat (length (filter (λ p, p ≠ NULL) ptrs)), ptrs).

(** Second half of [slurm_auth_get_ops] (from "Find the correct plugin"
    on): bind the plugin of the context's type and dereference its API.
    The result is [None] for the C null pointer and [Some] of the table
    for the address of [c->ops]. *)
Definition slurm_auth_get_ops_bind (w : World) (c : ptr)
  : M (option slurm_auth_ops_t) :=
  x ← load c;
  let plug := w_plugrack_use_by_type w (plugin_list x) (auth_type x) in
  log (ev_plugrack_use_by_type (plugin_list x) (auth_type x) plug);;
  assign c (with_cur_plugin plug);;
  if plug =? PLUGIN_INVALID_HANDLE then mret None
  else
    let '(count, ptrs) := plugin_get_syms w plug syms in
    log (ev_plugin_get_syms plug count);;
    assign c (with_ops (ops_of_slots ptrs));;
    if count <? n_syms then mret None
    else x ← load c; mret (Some (ops x)).

(** [slurm_auth_get_ops]: create and fill the plugin rack on first
    reference, then bind. *)
Definition slurm_auth_get_ops (w : World) (c : ptr)
  : M (option slurm_auth_ops_t) :=
  x ← load c;
  if non_null (plugin_list x) then slurm_auth_get_ops_bind w c
  else
    let rack := w_plugrack_create w in
    log (ev_plugrack_create rack);;
    assign c (with_plugin_list rack);;
    if non_null rack then
      log (ev_plugrack_set_major_type rack "auth");;
      log (ev_plugrack_set_paranoia rack PLUGRACK_PARANOIA_NONE 0);;
      dir ← get_plugin_dir w;
      log (ev_plugrack_read_dir rack dir);;
      slurm_auth_get_ops_bind w c
    else mret None.

(** ** Creating and destroying a context *)

(** [slurm_auth_context_create]. The argument is [None] for a null
    [auth_type]. *)
Definition slurm_auth_context_create (w : World) (type : option string) : M ptr :=
  match type with
  | None => mret NULL
  | Some t =>
      c ← xmalloc_context;
      if w_strdup_ok w then
        assign c (with_auth_type t);;
        assign c (with_plugin_list NULL);;
        assign c (with_cur_plugin PLUGIN_INVALID_HANDLE);;
        mret c
      else
        xfree_context c;; mret NULL
  end.

(** [slurm_auth_context_destroy]. Freeing the structure frees the copy
    of the type string it owns. *)
Definition slurm_auth_context_destroy (w : World) (c : ptr) : M Z :=
  x ← load c;
  if non_null (plugin_list x) then
    let rc := w_plugrack_destroy w (plugin_list x) in
    log (ev_plugrack_destroy (plugin_list x) rc);;
    if negb (rc =? SLURM_SUCCESS) then mret SLURM_ERROR
    else xfree_context c;; mret SLURM_SUCCESS
  else xfree_context c;; mret SLURM_SUCCESS.

(** ** The global context *)

(** [slurm_auth_init]. *)
Definition slurm_auth_init (w : World) : M Z :=
  s ← get_state;
  if non_null (g_context s) then mret SLURM_SUCCESS
  else
    type ← get_auth_type w;
    c ← slurm_auth_context_create w type;
    set_g_context c;;
    s ← get_state;
    if g_context s =? NULL then
      get_auth_type w;; mret SLURM_ERROR
    else
      o ← slurm_auth_get_ops w (g_context s);
      match o with
      | None => mret SLURM_ERROR
      | Some _ => mret SLURM_SUCCESS
      end.

(** ** Static bindings for an arbitrary authentication context *)

Definition c_slurm_auth_alloc (w : World) (c : ptr) : M ptr :=
  if c =? NULL then mret NULL
  else
    x ← load c;
    if non_null (alloc (ops x)) then invoke w (alloc (ops x)) []
    else mret NULL.

Definition c_slurm_auth_free (w : World) (c cred : ptr) : M unit :=
  if (c =? NULL) || (cred =? NULL) then mret ()
  else
    x ← load c;
    if non_null (free (ops x)) then invoke w (free (ops x)) [cred];; mret ()
    else mret ().

Definition c_slurm_auth_activate (w : World) (c cred : ptr) (secs : Z) : M Z :=
  if (c =? NULL) || (cred =? NULL) then mret SLURM_ERROR
  else
    x ← load c;
    if non_null (activate (ops x)) then invoke w (activate (ops x)) [cred; secs]
    else mret SLURM_ERROR.

Definition c_slurm_auth_verify (w : World) (c cred : ptr) : M Z :=
  if (c =? NULL) || (cred =? NULL) then mret SLURM_ERROR
  else
    x ← load c;
    if non_null (verify (ops x)) then invoke w (verify (ops x)) [cred]
    else mret SLURM_ERROR.

Definition c_slurm_auth_get_uid (w : World) (c cred : ptr) : M Z :=
  if (c =? NULL) || (cred =? NULL) then mret SLURM_AUTH_NOBODY
  else
    x ← load c;
    if non_null (verify (ops x)) then invoke w (get_uid (ops x)) [cred]
    else mret SLURM_AUTH_NOBODY.

Definition c_slurm_auth_get_gid (w : World) (c cred : ptr) : M Z :=
  if (c =? NULL) || (cred =? NULL) then mret SLURM_AUTH_NOBODY
  else
    x ← load c;
    if non_null (verify (ops x)) then invoke w (get_gid (ops x)) [cred]
    else mret SLURM_AUTH_NOBODY.

Definition c_slurm_auth_pack (w : World) (c cred buf : ptr) : M unit :=
  if (c =? NULL) || (cred =? NULL) || (buf =? NULL) then mret ()
  else
    x ← load c;
    if non_null (pack (ops x)) then invoke w (pack (ops x)) [cred; buf];; mret ()
    else mret ().

Definition c_slurm_auth_unpack (w : World) (c cred buf : ptr) : M Z :=
  if (c =? NULL) || (cred =? NULL) || (buf =? NULL) then mret SLURM_ERROR
  else
    x ← load c;
    if non_null (unpack (ops x)) then invoke w (unpack (ops x)) [cred; buf]
    else mret SLURM_ERROR.

Definition c_slurm_auth_print (w : World) (c cred fp : ptr) : M unit :=
  if (c =? NULL) || (cred =? NULL) || (fp =? NULL) then mret ()
  else
    x ← load c;
    if non_null (print (ops x)) then invoke w (print (ops x)) [cred; fp];; mret ()
    else mret ().

(** ** Static bindings for the global authentication context *)

(** The prologue every global binding starts with: when [g_context] is
    null run [slurm_auth_init]; the result is [false] on the path that
    returns the degraded value and [true] on the path that goes on to
    dispatch. *)
Definition g_context_ready (w : World) : M bool :=
  s ← get_state;
  if negb (non_null (g_context s)) then
    rc ← slurm_auth_init w;
    mret (rc =? SLURM_SUCCESS)
  else mret true.

(** [g_context->ops] *)
Definition g_context_ops : M slurm_auth_ops_t :=
  s ← get_state; x ← load (g_context s); mret (ops x).

Definition g_slurm_auth_alloc (w : World) : M ptr :=
  ok ← g_context_ready w;
  if (ok : bool) then o ← g_context_ops; invoke w (alloc o) []
  else mret NULL.

Definition g_slurm_auth_free (w : World) (cred : ptr) : M unit :=
  ok ← g_context_ready w;
  if (ok : bool) then o ← g_context_ops; invoke w (free o) [cred];; mret ()
  else mret ().

Definition g_slurm_auth_activate (w : World) (cred : ptr) (secs : Z) : M Z :=
  ok ← g_context_ready w;
  if (ok : bool) then o ← g_context_ops; invoke w (activate o) [cred; secs]
  else mret SLURM_ERROR.

Definition g_slurm_auth_verify (w : World) (cred : ptr) : M Z :=
  ok ← g_context_ready w;
  if (ok : bool) then o ← g_context_ops; invoke w (verify o) [cred]
  else mret SLURM_ERROR.

Definition g_slurm_auth_get_uid (w : World) (cred : ptr) : M Z :=
  ok ← g_context_ready w;
  if (ok : bool) then o ← g_context_ops; invoke w (get_uid o) [cred]
  else mret SLURM_AUTH_NOBODY.

Definition g_slurm_auth_get_gid (w : World) (cred : ptr) : M Z :=
  ok ← g_context_ready w;
  if (ok : bool) then o ← g_context_ops; invoke w (get_gid o) [cred]
  else mret SLURM_AUTH_NOBODY.

Definition g_slurm_auth_pack (w : World) (cred buf : ptr) : M unit :=
  ok ← g_context_ready w;
  if (ok : bool) then o ← g_context_ops; invoke w (pack o) [cred; buf];; mret ()
  else mret ().

Definition g_slurm_auth_unpack (w : World) (cred buf : ptr) : M Z :=
  ok ← g_context_ready w;
  if (ok : bool) then o ← g_context_ops; invoke w (unpack o) [cred; buf]
  else mret SLURM_ERROR.

Definition g_slurm_auth_print (w : World) (cred fp : ptr) : M unit :=
  ok ← g_context_ready w;
  if (ok : bool) then o ← g_context_ops; invoke w (print o) [cred; fp];; mret ()
  else mret ().

(** ** Concrete worlds and states *)

(** The state of a freshly started process: statics zeroed, no context
    allocated, nothing called yet. *)
Definition initial_state : State :=
  mk_state NULL (mk_conf 0 None None) ∅ [].

(** A configuration file that sets the port and nothing else. *)
Definition read_port_only (c : slurm_ctl_conf_t) : slurm_ctl_conf_t :=
  mk_conf 7003 (plugindir c) (authtype c).

(** A configuration reader that leaves the structure as it finds it. *)
Definition read_nothing (c : slurm_ctl_conf_t) : slurm_ctl_conf_t := c.

(** A plugin at handle 500 that exports the nine symbols, at addresses
    1001 to 1009, or all but [slurm_auth_print]. *)
Definition dlsym_upto (n : nat) (plug : ptr) (name : string) : ptr :=
  match list_find (String.eqb name) (take n syms) with
  | Some (i, _) => 1001 + Z.of_nat i
  | None => NULL
  end.

Definition mech_answers (fn : ptr) (args : list Z) : Z :=
  if fn =? 1001 then 7000 else if fn =? 1005 then 42 else 0.

(** The rack (at 300) knows one plugin, of type auth/none. *)
Definition use_auth_none (rack : ptr) (type : string) : ptr :=
  if String.eqb type "auth/none" then 500 else PLUGIN_INVALID_HANDLE.

Definition world_complete : World :=
  mk_world read_port_only true 300 use_auth_none (dlsym_upto 9) (λ _ : Z, SLURM_SUCCESS) mech_answers.

Definition world_incomplete : World :=
  mk_world read_port_only true 300 use_auth_none (dlsym_upto 8) (λ _ : Z, SLURM_SUCCESS) mech_answers.

Definition world_no_plugin : World :=
  mk_world read_port_only true 300 (λ (_ : Z) (_ : string), PLUGIN_INVALID_HANDLE) (dlsym_upto 9)
    (λ _ : Z, SLURM_SUCCESS) mech_answers.

Definition world_busy : World :=
  mk_world read_port_only true 300 use_auth_none (dlsym_upto 9) (λ _ : Z, SLURM_ERROR) mech_answers.

Definition world_rereads : World :=
  mk_world read_nothing true 300 use_auth_none (dlsym_upto 9) (λ _ : Z, SLURM_SUCCESS) mech_answers.

(** A context at address 1 whose plugin offers [verify] but neither
    [get_uid] nor [get_gid]. *)
Definition ops_verify_only : slurm_auth_ops_t :=
  mk_ops NULL NULL NULL 1004 NULL NULL NULL NULL NULL.

Definition state_verify_only : State :=
  mk_state NULL (mk_conf 7003 None None)
    {[ 1 := mk_context "auth/none" 300 500 ops_verify_only ]} [].

(** The trace of one run of [slurm_auth_get_ops] on a new context in
    the worlds above, up to the rack's answer [plug]. *)
Definition trace_resolve (plug : ptr) : list event :=
  [ev_read_slurm_conf_ctl; ev_plugrack_create 300;
   ev_plugrack_set_major_type 300 "auth";
   ev_plugrack_set_paranoia 300 PLUGRACK_PARANOIA_NONE 0;
   ev_plugrack_read_dir 300 (Some "/usr/local/lib");
   ev_plugrack_use_by_type 300 "auth/none" plug].

Definition conf_cached : slurm_ctl_conf_t :=
  mk_conf 7003 (Some "/usr/local/lib") (Some "auth/none").

(** The state [slurm_auth_init] leaves when the rack has no plugin of
    the configured type. *)
Definition state_stale : State :=
  mk_state 1 conf_cached
    {[ 1 := mk_context "auth/none" 300 PLUGIN_INVALID_HANDLE ops_zero ]}
    (trace_resolve PLUGIN_INVALID_HANDLE).

(** The table of the plugin that lacks [slurm_auth_print]. *)
Definition ops_partial : slurm_auth_ops_t :=
  mk_ops 1001 1002 1003 1004 1005 1006 1007 1008 NULL.

(** The state [slurm_auth_init] leaves when the plugin resolves eight
    of the nine names. *)
Definition state_partial : State :=
  mk_state 1 conf_cached
    {[ 1 := mk_context "auth/none" 300 500 ops_partial ]}
    (trace_resolve 500 ++ [ev_plugin_get_syms 500 8]).

(** A state with the global context fully resolved. *)
Definition state_ready : State :=
  mk_state 1 conf_cached
    {[ 1 := mk_context "auth/none" 300 500
              (mk_ops 1001 1002 1003 1004 1005 1006 1007 1008 1009) ]}
    (trace_resolve 500 ++ [ev_plugin_get_syms 500 9]).

(** A world in which [strdup] finds no memory. *)
Definition world_oom : World :=
  mk_world read_port_only false 300 use_auth_none (dlsym_upto 9) (λ _ : Z, SLURM_SUCCESS)
    mech_answers.

(** From [s] to [s'] nothing changed except that at most one plugin
    function was called. *)
Definition at_most_one_call (s s' : State) : Prop :=
  s' = s ∨ ∃ fn args, fn ≠ NULL ∧ s' = logged (ev_call fn args) s.

(** The same, for the outcome of a computation started in [s]; a crash
    leaves no state to speak of. *)
Definition only_calls {A} (s : State) (o : outcome A) : Prop :=
  match o with
  | Ret _ s' => at_most_one_call s s'
  | Crash => True
  end.

(** ** The functions a caller can reach *)







(** ** Two threads in [slurm_auth_init] *)

(** The test [if ( g_context )] that opens [slurm_auth_init]. *)
Definition slurm_auth_init_test : M bool :=
  s ← get_state; mret (non_null (g_context s)).

(** What [slurm_auth_init] does after the test: return at once when the
    test found the context set, construct it otherwise. *)
Definition slurm_auth_init_rest (w : World) (set : bool) : M Z :=
  if set then mret SLURM_SUCCESS
  else
    type ← get_auth_type w;
    c ← slurm_auth_context_create w type;
    set_g_context c;;
    s ← get_state;
    if g_context s =? NULL then
      get_auth_type w;; mret SLURM_ERROR
    else
      o ← slurm_auth_get_ops w (g_context s);
      match o with
      | None => mret SLURM_ERROR
      | Some _ => mret SLURM_SUCCESS
      end.

(** Two threads enter [slurm_auth_init] together: both make the test
    before either goes on. No lock is held between the test and the
    assignment to [g_context], so this is one of the orders in which
    the two calls can run. *)
Definition slurm_auth_init_race (w : World) : M (Z * Z) :=
  a ← slurm_auth_init_test;
  b ← slurm_auth_init_test;
  ra ← slurm_auth_init_rest w a;
  rb ← slurm_auth_init_rest w b;
  mret (ra, rb).

(** The same two calls one after the other. *)
Definition slurm_auth_init_twice (w : World) : M (Z * Z) :=
  ra ← slurm_auth_init w;
  rb ← slurm_auth_init w;
  mret (ra, rb).

Definition is_plugrack_create (e : event) : bool :=
  match e with ev_plugrack_create _ => true | _ => false end.

Definition is_plugin_get_syms (e : event) : bool :=
  match e with ev_plugin_get_syms _ _ => true | _ => false end.

Definition count_events (p : event → bool) (t : list event) : nat :=
  length (filter (λ e, p e = true) t).

(** Contexts allocated, racks created and plugins resolved in the state
    a computation ends in. *)
Definition constructions {A} (o : outcome A) : option (nat * nat * nat) :=
  match o with
  | Ret _ s => Some (size (heap s),
                     count_events is_plugrack_create (trace s),
                     count_events is_plugin_get_syms (trace s))
  | Crash => None
  end.

(** The mechanism calls of a trace. *)
Definition is_call (e : event) : bool :=
  match e with ev_call _ _ => true | _ => false end.

Definition calls (t : list event) : list event := filter (λ e, is_call e = true) t.

(** What a run of [slurm_auth_get_ops] on the context at [c] leaves
    behind, from state [s] to state [s'] with result [r]: the global
    pointer, the mechanism calls made so far and the set of allocated
    cells are as before, the context is still allocated, and a non-null
    result is the table stored in the context, with all nine slots
    filled from a plugin that resolved all nine names. *)
Definition resolved_by (w : World) (c : ptr) (r : option slurm_auth_ops_t)
    (s s' : State) : Prop :=
  g_context s' = g_context s ∧
  calls (trace s') = calls (trace s) ∧
  dom (heap s') = dom (heap s) ∧
  ∃ x', heap s' !! c = Some x' ∧
    match r with
    | Some o =>
        ops x' = o ∧ populated o = 9%nat ∧
        cur_plugin x' ≠ PLUGIN_INVALID_HANDLE ∧
        (plugin_get_syms w (cur_plugin x') syms).1 = n_syms
    | None => True
    end.

(** * Properties *)

(** ** Running the monad *)

Lemma bind_Ret {A B} (m : M A) (k : A → M B) s a s' :
  m s = Ret a s' → (m ≫= k) s = k a s'.
Proof. intros H. unfold mbind, M_bind. by rewrite H. Qed.


Lemma bind_get_state {B} (k : State → M B) s : (get_state ≫= k) s = k s s.
Proof. reflexivity. Qed.

Lemma bind_log {B} e (k : () → M B) s : (log e ≫= k) s = k () (logged e s).
Proof. reflexivity. Qed.

Lemma bind_set_g_context {B} p (k : () → M B) s :
  (set_g_context p ≫= k) s = k () (mk_state p (conf s) (heap s) (trace s)).
Proof. reflexivity. Qed.

(** Unfold the monad and the primitive state updates. *)
Ltac run_prims :=
  cbv beta iota delta [mbind M_bind mret M_ret log set_conf set_g_context get_state crash];
  cbn [g_context conf heap trace logged poke release slurmd_port plugindir authtype].

Lemma load_live c x s : heap s !! c = Some x → load c s = Ret x s.
Proof. intros H. unfold load. by rewrite H. Qed.

Lemma invoke_non_null w fn args s :
  fn ≠ NULL → invoke w fn args s = Ret (w_mech w fn args) (logged (ev_call fn args) s).
Proof.
  intros H. unfold invoke, non_null.
  destruct (Z.eqb_spec fn NULL); [done|]. reflexivity.
Qed.

Lemma invoke_null w args s : invoke w NULL args s = Crash.
Proof. reflexivity. Qed.

Lemma non_null_true p : non_null p = true ↔ p ≠ NULL.
Proof. unfold non_null. destruct (Z.eqb_spec p NULL); naive_solver. Qed.

Lemma non_null_false p : non_null p = false ↔ p = NULL.
Proof. unfold non_null. destruct (Z.eqb_spec p NULL); naive_solver. Qed.

(** ** Explicit-context bindings and null arguments *)

(** C4. Each explicit-context binding, given a null context, a null
    credential or, where it takes one, a null buffer or stream, returns
    its sentinel and leaves the state, trace included, as it was: no
    plugin function is called. *)
Theorem c_bindings_null_arguments (w : World) (s : State) (c cred buf secs : ptr) :
  (c = NULL → c_slurm_auth_alloc w c s = Ret NULL s) ∧
  (c = NULL ∨ cred = NULL →
     c_slurm_auth_free w c cred s = Ret () s ∧
     c_slurm_auth_activate w c cred secs s = Ret SLURM_ERROR s ∧
     c_slurm_auth_verify w c cred s = Ret SLURM_ERROR s ∧
     c_slurm_auth_get_uid w c cred s = Ret SLURM_AUTH_NOBODY s ∧
     c_slurm_auth_get_gid w c cred s = Ret SLURM_AUTH_NOBODY s) ∧
  (c = NULL ∨ cred = NULL ∨ buf = NULL →
     c_slurm_auth_pack w c cred buf s = Ret () s ∧
     c_slurm_auth_unpack w c cred buf s = Ret SLURM_ERROR s ∧
     c_slurm_auth_print w c cred buf s = Ret () s).
Proof.
  split; [|split].
  - intros ->. reflexivity.
  - intros H.
    assert ((c =? NULL) || (cred =? NULL) = true) as E.
    { destruct H as [-> | ->]; [done|]. apply orb_true_r. }
    unfold c_slurm_auth_free, c_slurm_auth_activate, c_slurm_auth_verify,
      c_slurm_auth_get_uid, c_slurm_auth_get_gid. rewrite E. done.
  - intros H.
    assert ((c =? NULL) || (cred =? NULL) || (buf =? NULL) = true) as E.
    { destruct H as [-> | [-> | ->]]; [done| |].
      - rewrite orb_true_r. done.
      - apply orb_true_r. }
    unfold c_slurm_auth_pack, c_slurm_auth_unpack, c_slurm_auth_print.
    rewrite E. done.
Qed.

Lemma c_bindings_null_arguments_witness :
  c_slurm_auth_alloc world_complete NULL state_verify_only = Ret NULL state_verify_only ∧
  c_slurm_auth_verify world_complete 1 NULL state_verify_only
    = Ret SLURM_ERROR state_verify_only ∧
  c_slurm_auth_unpack world_complete 1 77 NULL state_verify_only
    = Ret SLURM_ERROR state_verify_only.
Proof.
  pose proof (c_bindings_null_arguments world_complete state_verify_only NULL 77 88 5) as (Ha & _ & _).
  pose proof (c_bindings_null_arguments world_complete state_verify_only 1 NULL 88 5) as (_ & Hb & _).
  pose proof (c_bindings_null_arguments world_complete state_verify_only 1 77 NULL 5) as (_ & _ & Hc).
  split; [apply Ha; reflexivity|].
  split; [apply Hb; right; reflexivity|].
  apply Hc. right. right. reflexivity.
Defined.

(** ** Explicit-context bindings and missing entry points *)

Ltac c_binding_step Hc Hx :=
  rewrite ?orb_false_iff in Hc;
  repeat match goal with
         | H : _ ∧ _ |- _ => destruct H
         end;
  cbv beta delta [c_slurm_auth_alloc c_slurm_auth_free c_slurm_auth_activate
    c_slurm_auth_verify c_slurm_auth_get_uid c_slurm_auth_get_gid
    c_slurm_auth_pack c_slurm_auth_unpack c_slurm_auth_print];
  repeat match goal with
         | H : (_ =? _) = false |- _ => rewrite H; clear H
         end;
  cbn [orb]; rewrite (bind_Ret _ _ _ _ _ (load_live _ _ _ Hx)).

(** Seven of the nine bindings test the slot they are about to call
    through: with that slot null they return their sentinel and call
    nothing, whatever the other slots hold. *)
Lemma c_bindings_guard_own_slot (w : World) (s : State) (c cred buf secs : ptr)
    (x : slurm_auth_context) :
  heap s !! c = Some x →
  (alloc (ops x) = NULL → c_slurm_auth_alloc w c s = Ret NULL s) ∧
  (free (ops x) = NULL → c_slurm_auth_free w c cred s = Ret () s) ∧
  (activate (ops x) = NULL → c_slurm_auth_activate w c cred secs s = Ret SLURM_ERROR s) ∧
  (verify (ops x) = NULL → c_slurm_auth_verify w c cred s = Ret SLURM_ERROR s) ∧
  (pack (ops x) = NULL → c_slurm_auth_pack w c cred buf s = Ret () s) ∧
  (unpack (ops x) = NULL → c_slurm_auth_unpack w c cred buf s = Ret SLURM_ERROR s) ∧
  (print (ops x) = NULL → c_slurm_auth_print w c cred buf s = Ret () s).
Proof.
  intros Hx.
  repeat split; intros Hnull.
  - unfold c_slurm_auth_alloc. destruct (c =? NULL); [done|].
    rewrite (bind_Ret _ _ _ _ _ (load_live _ _ _ Hx)), Hnull. done.
  - destruct ((c =? NULL) || (cred =? NULL)) eqn:Hc;
      [unfold c_slurm_auth_free; by rewrite Hc|].
    c_binding_step Hc Hx. rewrite Hnull. done.
  - destruct ((c =? NULL) || (cred =? NULL)) eqn:Hc;
      [unfold c_slurm_auth_activate; by rewrite Hc|].
    c_binding_step Hc Hx. rewrite Hnull. done.
  - destruct ((c =? NULL) || (cred =? NULL)) eqn:Hc;
      [unfold c_slurm_auth_verify; by rewrite Hc|].
    c_binding_step Hc Hx. rewrite Hnull. done.
  - destruct ((c =? NULL) || (cred =? NULL) || (buf =? NULL)) eqn:Hc;
      [unfold c_slurm_auth_pack; by rewrite Hc|].
    c_binding_step Hc Hx. rewrite Hnull. done.
  - destruct ((c =? NULL) || (cred =? NULL) || (buf =? NULL)) eqn:Hc;
      [unfold c_slurm_auth_unpack; by rewrite Hc|].
    c_binding_step Hc Hx. rewrite Hnull. done.
  - destruct ((c =? NULL) || (cred =? NULL) || (buf =? NULL)) eqn:Hc;
      [unfold c_slurm_auth_print; by rewrite Hc|].
    c_binding_step Hc Hx. rewrite Hnull. done.
Qed.

(** [c_slurm_auth_get_uid] and [c_slurm_auth_get_gid] test the [verify]
    slot and then call through their own. *)
Lemma c_get_uid_gid_test_verify_slot (w : World) (s : State) (c cred : ptr)
    (x : slurm_auth_context) :
  heap s !! c = Some x → c ≠ NULL → cred ≠ NULL →
  c_slurm_auth_get_uid w c cred s =
    (if non_null (verify (ops x)) then invoke w (get_uid (ops x)) [cred] s
     else Ret SLURM_AUTH_NOBODY s) ∧
  c_slurm_auth_get_gid w c cred s =
    (if non_null (verify (ops x)) then invoke w (get_gid (ops x)) [cred] s
     else Ret SLURM_AUTH_NOBODY s).
Proof.
  intros Hx Hc Hcred.
  assert ((c =? NULL) || (cred =? NULL) = false) as E.
  { apply orb_false_iff. split; by apply Z.eqb_neq. }
  unfold c_slurm_auth_get_uid, c_slurm_auth_get_gid. rewrite E.
  rewrite !(bind_Ret _ _ _ _ _ (load_live _ _ _ Hx)).
  by destruct (non_null (verify (ops x))).
Qed.

(** On a context whose table is still the zeroed one, as
    [slurm_auth_context_create] leaves it, every binding returns its
    sentinel and calls nothing. *)
Lemma c_bindings_on_new_context (w : World) (s : State) (c cred buf secs : ptr)
    (x : slurm_auth_context) :
  heap s !! c = Some x → ops x = ops_zero →
  c_slurm_auth_alloc w c s = Ret NULL s ∧
  c_slurm_auth_free w c cred s = Ret () s ∧
  c_slurm_auth_activate w c cred secs s = Ret SLURM_ERROR s ∧
  c_slurm_auth_verify w c cred s = Ret SLURM_ERROR s ∧
  c_slurm_auth_get_uid w c cred s = Ret SLURM_AUTH_NOBODY s ∧
  c_slurm_auth_get_gid w c cred s = Ret SLURM_AUTH_NOBODY s ∧
  c_slurm_auth_pack w c cred buf s = Ret () s ∧
  c_slurm_auth_unpack w c cred buf s = Ret SLURM_ERROR s ∧
  c_slurm_auth_print w c cred buf s = Ret () s.
Proof.
  intros Hx Hzero.
  destruct (c_bindings_guard_own_slot w s c cred buf secs x Hx)
    as (H1 & H2 & H3 & H4 & H7 & H8 & H9).
  rewrite Hzero in *. cbn [alloc free activate verify pack unpack print ops_zero] in *.
  assert (c_slurm_auth_get_uid w c cred s = Ret SLURM_AUTH_NOBODY s ∧
          c_slurm_auth_get_gid w c cred s = Ret SLURM_AUTH_NOBODY s) as [H5 H6].
  { destruct ((c =? NULL) || (cred =? NULL)) eqn:E.
    - unfold c_slurm_auth_get_uid, c_slurm_auth_get_gid. by rewrite E.
    - apply orb_false_iff in E as [Ec Ecred].
      apply Z.eqb_neq in Ec, Ecred.
      destruct (c_get_uid_gid_test_verify_slot w s c cred x Hx Ec Ecred) as [-> ->].
      by rewrite Hzero. }
  auto 10.
Qed.

(** The slip in the two identity bindings, seen on a table that has
    [verify] but lacks [get_uid] and [get_gid]: both call through the
    null slot instead of returning [SLURM_AUTH_NOBODY]. No caller can
    build such a context through the functions of this file (see
    [caller_tables_stay_null] below). *)
Theorem c_get_uid_gid_call_missing_slot :
  heap state_verify_only !! 1 = Some (mk_context "auth/none" 300 500 ops_verify_only) ∧
  get_uid ops_verify_only = NULL ∧
  get_gid ops_verify_only = NULL ∧
  c_slurm_auth_get_uid world_complete 1 77 state_verify_only = Crash ∧
  c_slurm_auth_get_gid world_complete 1 77 state_verify_only = Crash.
Proof. repeat split; vm_compute; reflexivity. Qed.

(** ** Global bindings over an initialised context *)

Lemma g_context_ready_set w s : g_context s ≠ NULL → g_context_ready w s = Ret true s.
Proof.
  intros H. unfold g_context_ready.
  rewrite bind_get_state.
  apply non_null_true in H. rewrite H. reflexivity.
Qed.

Lemma g_context_ops_live s x :
  heap s !! g_context s = Some x → g_context_ops s = Ret (ops x) s.
Proof.
  intros H. unfold g_context_ops.
  rewrite bind_get_state.
  rewrite (bind_Ret _ _ _ _ _ (load_live _ _ _ H)). reflexivity.
Qed.

(** What a global binding does once [g_context] is set: it goes
    straight to the dispatch [k] on the table of the global context. *)
Lemma g_dispatch {A} w s x (k : slurm_auth_ops_t → M A) (dflt : A) :
  g_context s ≠ NULL → heap s !! g_context s = Some x →
  (ok ← g_context_ready w;
   if (ok : bool) then o ← g_context_ops; k o else mret dflt) s
  = k (ops x) s.
Proof.
  intros Hg Hx.
  rewrite (bind_Ret _ _ _ _ _ (g_context_ready_set w s Hg)).
  rewrite (bind_Ret _ _ _ _ _ (g_context_ops_live s x Hx)). reflexivity.
Qed.

Lemma populated_all (o : slurm_auth_ops_t) :
  populated o = 9%nat →
  alloc o ≠ NULL ∧ free o ≠ NULL ∧ activate o ≠ NULL ∧
  verify o ≠ NULL ∧ get_uid o ≠ NULL ∧ get_gid o ≠ NULL ∧
  pack o ≠ NULL ∧ unpack o ≠ NULL ∧ print o ≠ NULL.
Proof.
  destruct o as [a b c d e f g h i]. unfold populated, ops_slots. cbn -[filter NULL].
  intros H.
  assert (∀ p, p ∈ [a; b; c; d; e; f; g; h; i] → p ≠ NULL) as HF.
  { intros p Hp Hn.
    pose proof (length_filter_lt (λ q : Z, q ≠ NULL) _ p Hp (λ K, K Hn)) as Hlt.
    rewrite H in Hlt. cbn [length] in Hlt. lia. }
  repeat split; apply HF; set_solver.
Qed.

(** C10. Once the global context is set and its table fully populated,
    each global binding calls the plugin function of its slot with the
    credential, and the buffer or stream, exactly as received, null
    included, and returns what the plugin returns; the explicit-context
    bindings for [free], [pack] and [print] given the same context and a
    null credential or buffer call nothing. *)
Theorem g_bindings_forward_unchecked (w : World) (s : State) (x : slurm_auth_context)
    (cred buf secs : ptr) :
  g_context s ≠ NULL →
  heap s !! g_context s = Some x →
  populated (ops x) = 9%nat →
  let o := ops x in
  g_slurm_auth_alloc w s
    = Ret (w_mech w (alloc o) []) (logged (ev_call (alloc o) []) s) ∧
  g_slurm_auth_free w cred s = Ret () (logged (ev_call (free o) [cred]) s) ∧
  g_slurm_auth_activate w cred secs s
    = Ret (w_mech w (activate o) [cred; secs])
          (logged (ev_call (activate o) [cred; secs]) s) ∧
  g_slurm_auth_verify w cred s
    = Ret (w_mech w (verify o) [cred]) (logged (ev_call (verify o) [cred]) s) ∧
  g_slurm_auth_get_uid w cred s
    = Ret (w_mech w (get_uid o) [cred]) (logged (ev_call (get_uid o) [cred]) s) ∧
  g_slurm_auth_get_gid w cred s
    = Ret (w_mech w (get_gid o) [cred]) (logged (ev_call (get_gid o) [cred]) s) ∧
  g_slurm_auth_pack w cred buf s = Ret () (logged (ev_call (pack o) [cred; buf]) s) ∧
  g_slurm_auth_unpack w cred buf s
    = Ret (w_mech w (unpack o) [cred; buf])
          (logged (ev_call (unpack o) [cred; buf]) s) ∧
  g_slurm_auth_print w cred buf s = Ret () (logged (ev_call (print o) [cred; buf]) s) ∧
  c_slurm_auth_free w (g_context s) NULL s = Ret () s ∧
  c_slurm_auth_pack w (g_context s) NULL buf s = Ret () s ∧
  c_slurm_auth_pack w (g_context s) cred NULL s = Ret () s ∧
  c_slurm_auth_print w (g_context s) NULL buf s = Ret () s ∧
  c_slurm_auth_print w (g_context s) cred NULL s = Ret () s.
Proof.
  intros Hg Hx Hfull o.
  destruct (populated_all _ Hfull) as (H1 & H2 & H3 & H4 & H5 & H6 & H7 & H8 & H9).
  pose proof (λ A k d, @g_dispatch A w s x k d Hg Hx) as D.
  repeat split.
  - etrans; [apply D|]. apply (invoke_non_null w _ _ s H1).
  - etrans; [apply D|].
    rewrite (bind_Ret _ _ _ _ _ (invoke_non_null w _ _ s H2)). reflexivity.
  - etrans; [apply D|]. apply (invoke_non_null w _ _ s H3).
  - etrans; [apply D|]. apply (invoke_non_null w _ _ s H4).
  - etrans; [apply D|]. apply (invoke_non_null w _ _ s H5).
  - etrans; [apply D|]. apply (invoke_non_null w _ _ s H6).
  - etrans; [apply D|].
    rewrite (bind_Ret _ _ _ _ _ (invoke_non_null w _ _ s H7)). reflexivity.
  - etrans; [apply D|]. apply (invoke_non_null w _ _ s H8).
  - etrans; [apply D|].
    rewrite (bind_Ret _ _ _ _ _ (invoke_non_null w _ _ s H9)). reflexivity.
  - unfold c_slurm_auth_free. by rewrite orb_true_r.
  - unfold c_slurm_auth_pack. rewrite orb_true_r. done.
  - unfold c_slurm_auth_pack. by rewrite orb_true_r.
  - unfold c_slurm_auth_print. rewrite orb_true_r. done.
  - unfold c_slurm_auth_print. by rewrite orb_true_r.
Qed.

Lemma g_bindings_forward_unchecked_witness :
  g_slurm_auth_free world_complete NULL state_ready
    = Ret () (logged (ev_call 1002 [NULL]) state_ready) ∧
  g_slurm_auth_pack world_complete NULL NULL state_ready
    = Ret () (logged (ev_call 1007 [NULL; NULL]) state_ready) ∧
  g_slurm_auth_print world_complete NULL NULL state_ready
    = Ret () (logged (ev_call 1009 [NULL; NULL]) state_ready) ∧
  c_slurm_auth_free world_complete 1 NULL state_ready = Ret () state_ready.
Proof.
  assert (g_context state_ready ≠ NULL) as Hg by (vm_compute; discriminate).
  assert (heap state_ready !! g_context state_ready
          = Some (mk_context "auth/none" 300 500
                    (mk_ops 1001 1002 1003 1004 1005 1006 1007 1008 1009))) as Hx
    by (vm_compute; reflexivity).
  assert (populated (mk_ops 1001 1002 1003 1004 1005 1006 1007 1008 1009) = 9%nat) as Hfull
    by (vm_compute; reflexivity).
  pose proof (g_bindings_forward_unchecked world_complete state_ready _ NULL NULL 5
                Hg Hx Hfull) as H.
  cbv zeta in H. cbn [ops free pack print] in H.
  repeat split; apply H.
Defined.

(** ** The configuration cache *)

(** What [get_auth_type] computes, in closed form: the state [s1] is the
    one after the conditional read. *)
Lemma get_auth_type_unfold (w : World) (s : State) :
  get_auth_type w s =
    let s1 := if slurmd_port (conf s) =? 0
              then mk_state (g_context s) (w_read_slurm_conf_ctl w (conf s)) (heap s)
                     (trace s ++ [ev_read_slurm_conf_ctl])
              else s in
    match authtype (conf s1) with
    | Some v => Ret (Some v) s1
    | None =>
        Ret (Some "auth/none")
          (mk_state (g_context s1)
             (mk_conf (slurmd_port (conf s1)) (plugindir (conf s1)) (Some "auth/none"))
             (heap s1) (trace s1))
    end.
Proof.
  unfold get_auth_type. run_prims.
  destruct (slurmd_port (conf s) =? 0); run_prims.
  - unfold logged. run_prims.
    destruct (authtype (w_read_slurm_conf_ctl w (conf s))) eqn:E; cbn; by rewrite ?E.
  - destruct s as [g [p d a] h t]; cbn. by destruct a.
Qed.

Lemma get_plugin_dir_unfold (w : World) (s : State) :
  get_plugin_dir w s =
    let s1 := if slurmd_port (conf s) =? 0
              then mk_state (g_context s) (w_read_slurm_conf_ctl w (conf s)) (heap s)
                     (trace s ++ [ev_read_slurm_conf_ctl])
              else s in
    match plugindir (conf s1) with
    | Some v => Ret (Some v) s1
    | None =>
        Ret (Some "/usr/local/lib")
          (mk_state (g_context s1)
             (mk_conf (slurmd_port (conf s1)) (Some "/usr/local/lib") (authtype (conf s1)))
             (heap s1) (trace s1))
    end.
Proof.
  unfold get_plugin_dir. run_prims.
  destruct (slurmd_port (conf s) =? 0); run_prims.
  - unfold logged. run_prims.
    destruct (plugindir (w_read_slurm_conf_ctl w (conf s))) eqn:E; cbn; by rewrite ?E.
  - destruct s as [g [p d a] h t]; cbn. by destruct d.
Qed.

(** ** Resolving the operations *)

Lemma assign_live c f x s :
  heap s !! c = Some x → assign c f s = Ret () (poke c (f x) s).
Proof.
  intros H. unfold assign, store.
  rewrite (bind_Ret _ _ _ _ _ (load_live _ _ _ H)). by rewrite H.
Qed.

Lemma poke_lookup c x s : heap (poke c x s) !! c = Some x.
Proof. apply lookup_insert_eq. Qed.

Lemma logged_lookup e c s : heap (logged e s) !! c = heap s !! c.
Proof. reflexivity. Qed.

(** [slurm_auth_get_ops_bind] in closed form. *)
Lemma slurm_auth_get_ops_bind_unfold (w : World) (c : ptr) (s : State)
    (x : slurm_auth_context) :
  heap s !! c = Some x →
  slurm_auth_get_ops_bind w c s =
    let plug := w_plugrack_use_by_type w (plugin_list x) (auth_type x) in
    let x1 := with_cur_plugin plug x in
    let s1 := poke c x1
                (logged (ev_plugrack_use_by_type (plugin_list x) (auth_type x) plug) s) in
    if plug =? PLUGIN_INVALID_HANDLE then Ret None s1
    else
      let r := plugin_get_syms w plug syms in
      let o := ops_of_slots r.2 in
      let s2 := poke c (with_ops o x1) (logged (ev_plugin_get_syms plug r.1) s1) in
      if r.1 <? n_syms then Ret None s2 else Ret (Some o) s2.
Proof.
  intros Hx. unfold slurm_auth_get_ops_bind.
  rewrite (bind_Ret _ _ _ _ _ (load_live _ _ _ Hx)).
  set (plug := w_plugrack_use_by_type w _ _).
  cbv zeta.
  rewrite bind_log.
  set (s0 := logged _ s).
  assert (heap s0 !! c = Some x) as Hx0 by done.
  rewrite (bind_Ret _ _ _ _ _ (assign_live c _ x s0 Hx0)).
  destruct (plug =? PLUGIN_INVALID_HANDLE); [reflexivity|].
  destruct (plugin_get_syms w plug syms) as [count ptrs] eqn:Er. cbn [fst snd].
  set (s1 := poke c _ s0).
  pose proof (poke_lookup c (with_cur_plugin plug x) s0) as Hx1. fold s1 in Hx1.
  rewrite bind_log.
  set (s1' := logged _ s1).
  assert (heap s1' !! c = Some (with_cur_plugin plug x)) as Hx1' by done.
  rewrite (bind_Ret _ _ _ _ _ (assign_live c _ _ s1' Hx1')).
  destruct (count <? n_syms); [reflexivity|].
  pose proof (poke_lookup c (with_ops (ops_of_slots ptrs) (with_cur_plugin plug x)) s1') as Hx2.
  rewrite (bind_Ret _ _ _ _ _ (load_live _ _ _ Hx2)). reflexivity.
Qed.

Lemma calls_logged e s : is_call e = false → calls (trace (logged e s)) = calls (trace s).
Proof.
  intros H. unfold calls. cbn [trace logged]. rewrite filter_app.
  rewrite (filter_cons_False (λ e, is_call e = true)) by congruence.
  rewrite filter_nil. apply app_nil_r.
Qed.

Lemma dom_poke_live c x y s : heap s !! c = Some y → dom (heap (poke c x s)) = dom (heap s).
Proof.
  intros H. cbn. rewrite dom_insert_L.
  apply elem_of_dom_2 in H. apply subseteq_union_1_L, singleton_subseteq_l, H.
Qed.

Lemma ops_slots_of_slots (l : list Z) : length l = 9%nat → ops_slots (ops_of_slots l) = l.
Proof.
  intros H. do 9 (destruct l as [|? l]; [discriminate|]).
  destruct l; [reflexivity|discriminate].
Qed.

Lemma plugin_get_syms_count (w : World) (plug : ptr) :
  let r := plugin_get_syms w plug syms in
  r.1 = Z.of_nat (populated (ops_of_slots r.2)) ∧ r.1 ≤ n_syms.
Proof.
  cbn zeta. unfold plugin_get_syms, populated. cbn [fst snd].
  rewrite ops_slots_of_slots by (by rewrite length_map).
  split; [reflexivity|].
  unfold n_syms. apply inj_le.
  etrans; [apply length_filter|]. by rewrite length_map.
Qed.

Lemma slurm_auth_get_ops_bind_spec (w : World) (c : ptr) (s : State)
    (x : slurm_auth_context) :
  heap s !! c = Some x →
  ∃ r s', slurm_auth_get_ops_bind w c s = Ret r s' ∧ resolved_by w c r s s'.
Proof.
  intros Hx. rewrite (slurm_auth_get_ops_bind_unfold w c s x Hx). cbv zeta.
  set (plug := w_plugrack_use_by_type w _ _).
  set (s0 := logged _ s).
  assert (heap s0 !! c = Some x) as Hx0 by done.
  assert (calls (trace s0) = calls (trace s)) as Hc0 by (by apply calls_logged).
  set (s1 := poke c _ s0).
  assert (dom (heap s1) = dom (heap s)) as Hd1 by (apply (dom_poke_live c _ x s0 Hx0)).
  destruct (Z.eqb_spec plug PLUGIN_INVALID_HANDLE) as [Hp|Hp].
  { eexists _, _. split; [reflexivity|].
    split; [done|]. split; [done|]. split; [done|].
    eexists. split; [apply poke_lookup|done]. }
  destruct (plugin_get_syms_count w plug) as [Hcount Hle].
  set (r := plugin_get_syms w plug syms) in *.
  set (s2 := poke c _ _).
  assert (dom (heap s2) = dom (heap s)) as Hd2.
  { etrans; [|exact Hd1].
    apply (dom_poke_live c _ (with_cur_plugin plug x) (logged _ s1)).
    apply (poke_lookup c _ s0). }
  assert (calls (trace s2) = calls (trace s)) as Hc2.
  { etrans; [|exact Hc0]. by apply (calls_logged _ s1). }
  destruct (Z.ltb_spec r.1 n_syms) as [Hlt|Hge].
  - eexists _, _. split; [reflexivity|].
    split; [done|]. split; [done|]. split; [done|].
    eexists. split; [apply poke_lookup|done].
  - eexists _, _. split; [reflexivity|].
    split; [done|]. split; [done|]. split; [done|].
    eexists. split; [apply poke_lookup|].
    assert (n_syms = 9) as Hn by reflexivity.
    split; [reflexivity|]. split; [|split; [exact Hp|]].
    + apply Nat2Z.inj. rewrite <- Hcount. lia.
    + change (r.1 = n_syms). lia.
Qed.

(** The configuration getters always return a string, and touch neither
    the heap, nor the global context, nor the plugin. *)
Lemma get_plugin_dir_frame (w : World) (s : State) :
  ∃ d s', get_plugin_dir w s = Ret (Some d) s' ∧
    heap s' = heap s ∧ g_context s' = g_context s ∧ calls (trace s') = calls (trace s).
Proof.
  rewrite get_plugin_dir_unfold. cbv zeta.
  destruct (slurmd_port (conf s) =? 0).
  - cbn [conf]. destruct (plugindir (w_read_slurm_conf_ctl w (conf s)));
      eexists _, _; (split; [reflexivity|]); repeat split;
      apply (calls_logged ev_read_slurm_conf_ctl s eq_refl).
  - destruct (plugindir (conf s)); eexists _, _; (split; [reflexivity|]); done.
Qed.

Lemma get_auth_type_frame (w : World) (s : State) :
  ∃ v s', get_auth_type w s = Ret (Some v) s' ∧
    heap s' = heap s ∧ g_context s' = g_context s ∧ calls (trace s') = calls (trace s).
Proof.
  rewrite get_auth_type_unfold. cbv zeta.
  destruct (slurmd_port (conf s) =? 0).
  - cbn [conf]. destruct (authtype (w_read_slurm_conf_ctl w (conf s)));
      eexists _, _; (split; [reflexivity|]); repeat split;
      apply (calls_logged ev_read_slurm_conf_ctl s eq_refl).
  - destruct (authtype (conf s)); eexists _, _; (split; [reflexivity|]); done.
Qed.

Lemma resolved_by_from (w : World) (c : ptr) r (s s0 s' : State) :
  g_context s0 = g_context s → calls (trace s0) = calls (trace s) →
  dom (heap s0) = dom (heap s) →
  resolved_by w c r s0 s' → resolved_by w c r s s'.
Proof.
  intros Hg Hc Hd (Hg' & Hc' & Hd' & Hx). repeat split; [congruence..|done].
Qed.

Lemma slurm_auth_get_ops_spec (w : World) (c : ptr) (s : State)
    (x : slurm_auth_context) :
  heap s !! c = Some x →
  ∃ r s', slurm_auth_get_ops w c s = Ret r s' ∧ resolved_by w c r s s'.
Proof.
  intros Hx. unfold slurm_auth_get_ops.
  rewrite (bind_Ret _ _ _ _ _ (load_live _ _ _ Hx)).
  destruct (non_null (plugin_list x)).
  { by apply (slurm_auth_get_ops_bind_spec w c s x). }
  cbv zeta. rewrite bind_log.
  set (rack := w_plugrack_create w).
  set (s0 := logged _ s).
  assert (heap s0 !! c = Some x) as Hx0 by done.
  rewrite (bind_Ret _ _ _ _ _ (assign_live c _ x s0 Hx0)).
  set (s1 := poke c _ s0).
  assert (heap s1 !! c = Some (with_plugin_list rack x)) as Hx1 by apply poke_lookup.
  assert (dom (heap s1) = dom (heap s)) as Hd1 by apply (dom_poke_live c _ x s0 Hx0).
  assert (calls (trace s1) = calls (trace s)) as Hc1 by (by apply (calls_logged _ s)).
  destruct (non_null rack).
  2:{ eexists _, _. split; [reflexivity|]. repeat split; [done..|]. by eexists. }
  rewrite !bind_log.
  set (s2 := logged _ (logged _ s1)).
  destruct (get_plugin_dir_frame w s2) as (d & s3 & Hrun & Hh3 & Hg3 & Hc3).
  rewrite (bind_Ret _ _ _ _ _ Hrun), bind_log.
  set (s4 := logged _ s3).
  assert (heap s4 !! c = Some (with_plugin_list rack x)) as Hx4.
  { change (heap s3 !! c = Some (with_plugin_list rack x)). by rewrite Hh3. }
  destruct (slurm_auth_get_ops_bind_spec w c s4 _ Hx4) as (r & s' & Hbind & Hres).
  exists r, s'. split; [exact Hbind|].
  apply (resolved_by_from w c r s s4 s'); [| | |exact Hres].
  - change (g_context s3 = g_context s). by rewrite Hg3.
  - etrans; [apply (calls_logged _ s3); reflexivity|]. rewrite Hc3.
    unfold s2. by rewrite !calls_logged.
  - change (dom (heap s3) = dom (heap s)). by rewrite Hh3.
Qed.

(** ** Creating and destroying a context *)

Lemma xfree_context_live c x s : heap s !! c = Some x → xfree_context c s = Ret () (release c s).
Proof. intros H. unfold xfree_context. by rewrite H. Qed.

Lemma poke_poke c x y s : poke c y (poke c x s) = poke c y s.
Proof. unfold poke. cbn. by rewrite insert_insert_eq. Qed.

Lemma release_poke_fresh c x s : heap s !! c = None → release c (poke c x s) = s.
Proof.
  intros H. unfold release, poke. cbn. rewrite delete_insert_id by done. by destruct s.
Qed.

Lemma xmalloc_fresh (s : State) :
  let a := fresh ({[NULL]} ∪ dom (heap s)) in a ≠ NULL ∧ heap s !! a = None.
Proof.
  cbv zeta. pose proof (is_fresh ({[NULL]} ∪ dom (heap s))) as H.
  split.
  - intros E. apply H. rewrite E. apply elem_of_union_l, elem_of_singleton. reflexivity.
  - apply not_elem_of_dom. intros E. apply H. by apply elem_of_union_r.
Qed.

(** [slurm_auth_context_create] in closed form. *)
Lemma slurm_auth_context_create_unfold (w : World) (t : string) (s : State) :
  slurm_auth_context_create w (Some t) s =
    let a := fresh ({[NULL]} ∪ dom (heap s)) in
    if w_strdup_ok w
    then Ret a (poke a (mk_context t NULL PLUGIN_INVALID_HANDLE ops_zero) s)
    else Ret NULL s.
Proof.
  destruct (xmalloc_fresh s) as [Hnn Hfresh]. cbv zeta.
  set (a := fresh _) in *.
  unfold slurm_auth_context_create.
  rewrite (bind_Ret xmalloc_context _ s a
             (poke a (mk_context "" NULL NULL ops_zero) s) eq_refl).
  destruct (w_strdup_ok w).
  - rewrite (bind_Ret _ _ _ _ _ (assign_live a _ _ _ (poke_lookup _ _ _))).
    rewrite poke_poke.
    rewrite (bind_Ret _ _ _ _ _ (assign_live a _ _ _ (poke_lookup _ _ _))).
    rewrite poke_poke.
    rewrite (bind_Ret _ _ _ _ _ (assign_live a _ _ _ (poke_lookup _ _ _))).
    rewrite poke_poke. reflexivity.
  - rewrite (bind_Ret _ _ _ _ _ (xfree_context_live a _ _ (poke_lookup _ _ _))).
    by rewrite release_poke_fresh.
Qed.

(** [slurm_auth_context_destroy] in closed form, on an allocated
    context. *)
Lemma slurm_auth_context_destroy_unfold (w : World) (c : ptr) (s : State)
    (x : slurm_auth_context) :
  heap s !! c = Some x →
  slurm_auth_context_destroy w c s =
    if non_null (plugin_list x) then
      let rc := w_plugrack_destroy w (plugin_list x) in
      let s1 := logged (ev_plugrack_destroy (plugin_list x) rc) s in
      if negb (rc =? SLURM_SUCCESS) then Ret SLURM_ERROR s1
      else Ret SLURM_SUCCESS (release c s1)
    else Ret SLURM_SUCCESS (release c s).
Proof.
  intros Hx. unfold slurm_auth_context_destroy.
  rewrite (bind_Ret _ _ _ _ _ (load_live _ _ _ Hx)).
  destruct (non_null (plugin_list x)).
  - cbv zeta. rewrite bind_log.
    destruct (negb _); [reflexivity|].
    by rewrite (bind_Ret _ _ _ _ _ (xfree_context_live c x (logged _ s) Hx)).
  - by rewrite (bind_Ret _ _ _ _ _ (xfree_context_live c x s Hx)).
Qed.

(** ** Global initialisation *)

Lemma slurm_auth_init_set (w : World) (s : State) :
  g_context s ≠ NULL → slurm_auth_init w s = Ret SLURM_SUCCESS s.
Proof.
  intros H. unfold slurm_auth_init. rewrite bind_get_state.
  apply non_null_true in H. by rewrite H.
Qed.

(** What [slurm_auth_init] does when the global context is not yet set.
    It always returns. It calls no plugin function. When the copy of
    the type string fails it reports an error and leaves [g_context]
    null and the heap as it was. Otherwise [g_context] points to a
    newly allocated context whatever the return code; on success that
    context's table has all nine slots filled. *)
Lemma slurm_auth_init_spec (w : World) (s : State) :
  g_context s = NULL →
  ∃ rc s', slurm_auth_init w s = Ret rc s' ∧
    calls (trace s') = calls (trace s) ∧
    if w_strdup_ok w then
      g_context s' ≠ NULL ∧ heap s !! g_context s' = None ∧
      ∃ x', heap s' !! g_context s' = Some x' ∧
        ((rc = SLURM_SUCCESS ∧ populated (ops x') = 9%nat ∧
          (plugin_get_syms w (cur_plugin x') syms).1 = n_syms)
         ∨ rc = SLURM_ERROR)
    else rc = SLURM_ERROR ∧ g_context s' = NULL ∧ heap s' = heap s.
Proof.
  intros Hg. unfold slurm_auth_init. rewrite bind_get_state.
  apply non_null_false in Hg as Hg'. rewrite Hg'.
  destruct (get_auth_type_frame w s) as (v & s1 & Hrun & Hh1 & Hg1 & Hc1).
  rewrite (bind_Ret _ _ _ _ _ Hrun).
  pose proof (slurm_auth_context_create_unfold w v s1) as Hcr. cbv zeta in Hcr.
  destruct (xmalloc_fresh s1) as [Hnn Hfresh].
  set (a := fresh _) in *.
  destruct (w_strdup_ok w).
  - rewrite (bind_Ret _ _ _ _ _ Hcr), bind_set_g_context, bind_get_state.
    cbn [g_context].
    destruct (Z.eqb_spec a NULL) as [|_]; [done|].
    set (s3 := mk_state a _ _ _).
    assert (heap s3 !! a = Some (mk_context v NULL PLUGIN_INVALID_HANDLE ops_zero)) as Hx3
      by apply lookup_insert_eq.
    destruct (slurm_auth_get_ops_spec w a s3 _ Hx3)
      as (r & s' & Hops & Hg4 & Hc4 & Hd4 & x' & Hx' & Hr).
    rewrite (bind_Ret _ _ _ _ _ Hops).
    assert (g_context s' = a) as Hga by (by rewrite Hg4).
    exists (match r with Some _ => SLURM_SUCCESS | None => SLURM_ERROR end), s'.
    split; [by destruct r|]. split; [by rewrite Hc4|].
    rewrite Hga. split; [done|]. split; [by rewrite <- Hh1|].
    exists x'. split; [done|].
    destruct r as [o|]; [left|by right].
    destruct Hr as (<- & Hfull & _ & Hcount). done.
  - rewrite (bind_Ret _ _ _ _ _ Hcr), bind_set_g_context, bind_get_state.
    cbn [g_context]. change (NULL =? NULL) with true. cbv iota.
    set (s2 := mk_state NULL _ _ _).
    destruct (get_auth_type_frame w s2) as (v' & s3 & Hrun' & Hh3 & Hg3 & Hc3).
    rewrite (bind_Ret _ _ _ _ _ Hrun').
    exists SLURM_ERROR, s3. split; [reflexivity|].
    split; [by rewrite Hc3|]. split; [done|]. split; [by rewrite Hg3|].
    by rewrite Hh3.
Qed.

(** [slurm_auth_init] always returns, with one of the two codes. *)
Lemma slurm_auth_init_returns (w : World) (s : State) :
  ∃ rc s', slurm_auth_init w s = Ret rc s' ∧ (rc = SLURM_SUCCESS ∨ rc = SLURM_ERROR).
Proof.
  destruct (decide (g_context s = NULL)) as [Hg|Hg].
  - destruct (slurm_auth_init_spec w s Hg) as (rc & s' & Hrun & _ & H).
    exists rc, s'. split; [done|].
    destruct (w_strdup_ok w).
    + destruct H as (_ & _ & x' & _ & [(-> & _) | ->]); auto.
    + destruct H as (-> & _). auto.
  - exists SLURM_SUCCESS, s. split; [by apply slurm_auth_init_set|auto].
Qed.

(** The half of the retry contract that holds: when the context cannot
    be created, [g_context] stays null, so the next call goes through
    the whole construction again. *)
Lemma slurm_auth_init_create_failure (w : World) (s : State) :
  g_context s = NULL → w_strdup_ok w = false →
  ∃ s', slurm_auth_init w s = Ret SLURM_ERROR s' ∧
    g_context s' = NULL ∧ heap s' = heap s.
Proof.
  intros Hg Hdup.
  destruct (slurm_auth_init_spec w s Hg) as (rc & s' & Hrun & _ & H).
  rewrite Hdup in H. destruct H as (-> & Hg' & Hh). eauto.
Qed.

(** The half that does not: when the context is created, [g_context] is
    set before the operations are resolved and stays set whatever the
    resolution returns, so every later [slurm_auth_init], in any world,
    reports success without doing anything. *)
Lemma slurm_auth_init_resolve_failure (w : World) (s : State) :
  g_context s = NULL → w_strdup_ok w = true →
  ∃ rc s', slurm_auth_init w s = Ret rc s' ∧
    g_context s' ≠ NULL ∧
    ∀ w', slurm_auth_init w' s' = Ret SLURM_SUCCESS s'.
Proof.
  intros Hg Hdup.
  destruct (slurm_auth_init_spec w s Hg) as (rc & s' & Hrun & _ & H).
  rewrite Hdup in H. destruct H as (Hg' & _).
  exists rc, s'. split; [done|]. split; [done|].
  intros w'. by apply slurm_auth_init_set.
Qed.

(** C2. With no plugin of the configured type in the rack,
    [slurm_auth_init] returns [SLURM_ERROR] and leaves [g_context]
    pointing at the unresolved context. A second [slurm_auth_init], even
    in a world where the plugin is there, returns [SLURM_SUCCESS] and
    changes nothing, and a global binding then calls through the null
    slot. *)
Theorem slurm_auth_init_failure_keeps_context :
  slurm_auth_init world_no_plugin initial_state = Ret SLURM_ERROR state_stale ∧
  g_context state_stale = 1 ∧
  slurm_auth_init world_complete state_stale = Ret SLURM_SUCCESS state_stale ∧
  g_slurm_auth_verify world_complete 77 state_stale = Crash.
Proof. repeat split; vm_compute; reflexivity. Qed.

(** ** All-or-nothing resolution *)

(** Resolution fails when the plugin resolves fewer than nine names. *)
Lemma slurm_auth_get_ops_incomplete (w : World) (c : ptr) (s : State)
    (x : slurm_auth_context) :
  heap s !! c = Some x →
  (∀ plug, (plugin_get_syms w plug syms).1 < n_syms) →
  ∃ s', slurm_auth_get_ops w c s = Ret None s'.
Proof.
  intros Hx Hfew.
  destruct (slurm_auth_get_ops_spec w c s x Hx) as (r & s' & Hrun & _ & _ & _ & x' & _ & Hr).
  destruct r as [o|]; [|eauto].
  destruct Hr as (_ & _ & _ & Hcount). specialize (Hfew (cur_plugin x')). lia.
Qed.

(** A table that resolution hands out has all nine slots filled. *)
Lemma slurm_auth_get_ops_complete (w : World) (c : ptr) (s s' : State)
    (x : slurm_auth_context) (o : slurm_auth_ops_t) :
  heap s !! c = Some x →
  slurm_auth_get_ops w c s = Ret (Some o) s' →
  populated o = 9%nat ∧ ops <$> heap s' !! c = Some o.
Proof.
  intros Hx Hrun.
  destruct (slurm_auth_get_ops_spec w c s x Hx) as (r & s'' & Hrun' & _ & _ & _ & x' & Hx' & Hr).
  rewrite Hrun in Hrun'. injection Hrun' as <- <-.
  destruct Hr as (<- & Hfull & _). split; [done|]. by rewrite Hx'.
Qed.

(** [slurm_auth_init] reports the incomplete plugin. *)
Lemma slurm_auth_init_incomplete (w : World) (s : State) :
  g_context s = NULL →
  (∀ plug, (plugin_get_syms w plug syms).1 < n_syms) →
  ∃ s', slurm_auth_init w s = Ret SLURM_ERROR s'.
Proof.
  intros Hg Hfew.
  destruct (slurm_auth_init_spec w s Hg) as (rc & s' & Hrun & _ & H).
  exists s'. destruct (w_strdup_ok w).
  - destruct H as (_ & _ & x' & _ & [(_ & _ & Hcount) | ->]); [|done].
    specialize (Hfew (cur_plugin x')). lia.
  - by destruct H as (-> & _).
Qed.

(** C1. With a plugin that exports eight of the nine names, the first
    global call fails to initialise and returns null; the context it
    leaves behind in [g_context] has eight slots filled; the next global
    [alloc] calls the plugin through that table and the next global
    [print] calls through its null slot. *)
Theorem incomplete_table_is_dispatched :
  g_slurm_auth_alloc world_incomplete initial_state = Ret NULL state_partial ∧
  heap state_partial !! g_context state_partial
    = Some (mk_context "auth/none" 300 500 ops_partial) ∧
  populated ops_partial = 8%nat ∧
  g_slurm_auth_alloc world_incomplete state_partial
    = Ret 7000 (logged (ev_call 1001 []) state_partial) ∧
  g_slurm_auth_print world_incomplete 77 88 state_partial = Crash.
Proof. repeat split; vm_compute; reflexivity. Qed.

(** ** Global bindings when initialisation fails *)

Lemma g_context_ready_failed (w : World) (s s' : State) (rc : Z) :
  slurm_auth_init w s = Ret rc s' → rc ≠ SLURM_SUCCESS →
  g_context s = NULL ∧ g_context_ready w s = Ret false s'.
Proof.
  intros Hrun Hrc.
  destruct (decide (g_context s = NULL)) as [Hg|Hg].
  2:{ rewrite (slurm_auth_init_set w s Hg) in Hrun. by injection Hrun as <- _. }
  split; [done|].
  unfold g_context_ready. rewrite bind_get_state.
  apply non_null_false in Hg. rewrite Hg. cbn [negb].
  rewrite (bind_Ret _ _ _ _ _ Hrun).
  apply Z.eqb_neq in Hrc. by rewrite Hrc.
Qed.

(** The call that itself runs the failing [slurm_auth_init] does
    degrade: it returns null for [alloc], [SLURM_ERROR] for [activate],
    [verify] and [unpack], [SLURM_AUTH_NOBODY] for [get_uid] and
    [get_gid], nothing for [free], [pack] and [print]; the state it
    leaves is the one [slurm_auth_init] left, and no plugin function has
    been called. This says nothing of the calls that follow. *)
Theorem g_bindings_degrade_when_init_fails (w : World) (s s' : State) (rc : Z)
    (cred buf secs : ptr) :
  slurm_auth_init w s = Ret rc s' →
  rc ≠ SLURM_SUCCESS →
  g_slurm_auth_alloc w s = Ret NULL s' ∧
  g_slurm_auth_free w cred s = Ret () s' ∧
  g_slurm_auth_activate w cred secs s = Ret SLURM_ERROR s' ∧
  g_slurm_auth_verify w cred s = Ret SLURM_ERROR s' ∧
  g_slurm_auth_get_uid w cred s = Ret SLURM_AUTH_NOBODY s' ∧
  g_slurm_auth_get_gid w cred s = Ret SLURM_AUTH_NOBODY s' ∧
  g_slurm_auth_pack w cred buf s = Ret () s' ∧
  g_slurm_auth_unpack w cred buf s = Ret SLURM_ERROR s' ∧
  g_slurm_auth_print w cred buf s = Ret () s' ∧
  calls (trace s') = calls (trace s).
Proof.
  intros Hrun Hrc.
  destruct (g_context_ready_failed w s s' rc Hrun Hrc) as [Hg Hready].
  repeat split;
    try (cbv beta delta [g_slurm_auth_alloc g_slurm_auth_free g_slurm_auth_activate
           g_slurm_auth_verify g_slurm_auth_get_uid g_slurm_auth_get_gid
           g_slurm_auth_pack g_slurm_auth_unpack g_slurm_auth_print];
         by rewrite (bind_Ret _ _ _ _ _ Hready)).
  destruct (slurm_auth_init_spec w s Hg) as (rc' & s'' & Hrun' & Hcalls & _).
  rewrite Hrun in Hrun'. by injection Hrun' as _ <-.
Qed.

Lemma g_bindings_degrade_when_init_fails_witness :
  slurm_auth_init world_no_plugin initial_state = Ret SLURM_ERROR state_stale ∧
  g_slurm_auth_alloc world_no_plugin initial_state = Ret NULL state_stale ∧
  g_slurm_auth_verify world_no_plugin 77 initial_state = Ret SLURM_ERROR state_stale ∧
  g_slurm_auth_get_uid world_no_plugin 77 initial_state = Ret SLURM_AUTH_NOBODY state_stale ∧
  g_slurm_auth_pack world_no_plugin 77 88 initial_state = Ret () state_stale.
Proof.
  assert (slurm_auth_init world_no_plugin initial_state = Ret SLURM_ERROR state_stale) as Hrun
    by (vm_compute; reflexivity).
  assert (SLURM_ERROR ≠ SLURM_SUCCESS) as Hrc by (vm_compute; discriminate).
  pose proof (g_bindings_degrade_when_init_fails world_no_plugin initial_state state_stale
                SLURM_ERROR 77 88 5 Hrun Hrc) as H.
  split; [exact Hrun|]. tauto.
Defined.

(** ** Context creation *)

(** C6, as the code has it. A null type is refused. Any other type
    string, the empty one included, yields (when the copy of the string
    succeeds) a newly allocated context that holds the string, has no
    plugin rack yet, no current plugin and an empty table; destroying
    it straight away succeeds and gives the state back. *)
Theorem slurm_auth_context_create_spec (w : World) (s : State) :
  slurm_auth_context_create w None s = Ret NULL s ∧
  ∀ t : string, w_strdup_ok w = true →
    ∃ c, c ≠ NULL ∧ heap s !! c = None ∧
      let s' := poke c (mk_context t NULL PLUGIN_INVALID_HANDLE ops_zero) s in
      slurm_auth_context_create w (Some t) s = Ret c s' ∧
      ∀ w', slurm_auth_context_destroy w' c s' = Ret SLURM_SUCCESS s.
Proof.
  split; [reflexivity|]. intros t Hdup.
  destruct (xmalloc_fresh s) as [Hnn Hfresh].
  exists (fresh ({[NULL]} ∪ dom (heap s))). split; [done|]. split; [done|].
  cbv zeta. split.
  - rewrite slurm_auth_context_create_unfold. cbv zeta. by rewrite Hdup.
  - intros w'.
    rewrite (slurm_auth_context_destroy_unfold w' _ _ _ (poke_lookup _ _ _)).
    cbn [plugin_list]. change (non_null NULL) with false. cbv iota.
    by rewrite release_poke_fresh.
Qed.

Lemma slurm_auth_context_create_spec_witness :
  ∃ c, c ≠ NULL ∧
    slurm_auth_context_create world_complete (Some "auth/none") initial_state
      = Ret c (poke c (mk_context "auth/none" NULL PLUGIN_INVALID_HANDLE ops_zero)
                 initial_state) ∧
    slurm_auth_context_destroy world_busy c
      (poke c (mk_context "auth/none" NULL PLUGIN_INVALID_HANDLE ops_zero) initial_state)
      = Ret SLURM_SUCCESS initial_state.
Proof.
  destruct (slurm_auth_context_create_spec world_complete initial_state) as [_ H].
  destruct (H "auth/none" eq_refl) as (c & Hc & _ & Hrun & Hdestroy).
  exists c. split; [exact Hc|]. split; [exact Hrun|]. apply Hdestroy.
Defined.

(** The empty type string is accepted. *)
Lemma slurm_auth_context_create_empty :
  slurm_auth_context_create world_complete (Some "") initial_state
    = Ret 1 (poke 1 (mk_context "" NULL PLUGIN_INVALID_HANDLE ops_zero) initial_state) ∧
  1 ≠ NULL.
Proof. split; [vm_compute; reflexivity|discriminate]. Qed.

(** ** Defaults of the configuration cache *)

(** C7, as the code has it. Each getter first reads the configuration
    when, and only when, the cached [slurmd_port] is zero; it then
    returns the cached value, having stored "auth/none", respectively
    "/usr/local/lib", in the cache if the value was missing. On a cache
    with a non-zero port and the value present, a call in any world
    returns that value and leaves the whole state, trace included, as it
    was. *)
Theorem conf_defaults_cached (w : World) (s : State) :
  let c := if slurmd_port (conf s) =? 0 then w_read_slurm_conf_ctl w (conf s) else conf s in
  let t := if slurmd_port (conf s) =? 0 then trace s ++ [ev_read_slurm_conf_ctl]
           else trace s in
  let v := default "auth/none" (authtype c) in
  let d := default "/usr/local/lib" (plugindir c) in
  get_auth_type w s
    = Ret (Some v)
        (mk_state (g_context s) (mk_conf (slurmd_port c) (plugindir c) (Some v)) (heap s) t) ∧
  get_plugin_dir w s
    = Ret (Some d)
        (mk_state (g_context s) (mk_conf (slurmd_port c) (Some d) (authtype c)) (heap s) t) ∧
  (slurmd_port (conf s) ≠ 0 →
     (∀ x, authtype (conf s) = Some x → ∀ w', get_auth_type w' s = Ret (Some x) s) ∧
     (∀ x, plugindir (conf s) = Some x → ∀ w', get_plugin_dir w' s = Ret (Some x) s)).
Proof.
  cbv zeta. rewrite get_auth_type_unfold, get_plugin_dir_unfold. cbv zeta.
  split; [|split].
  - destruct (slurmd_port (conf s) =? 0); cbn [conf g_context heap trace].
    + by destruct (w_read_slurm_conf_ctl w (conf s)) as [p d [a|]].
    + by destruct s as [g [p d [a|]] h t].
  - destruct (slurmd_port (conf s) =? 0); cbn [conf g_context heap trace].
    + by destruct (w_read_slurm_conf_ctl w (conf s)) as [p [d|] a].
    + by destruct s as [g [p [d|] a] h t].
  - intros Hport. apply Z.eqb_neq in Hport.
    split; intros x Hx w'.
    + rewrite get_auth_type_unfold, Hport. cbv zeta. by rewrite Hx.
    + rewrite get_plugin_dir_unfold, Hport. cbv zeta. by rewrite Hx.
Qed.

Lemma conf_defaults_cached_witness :
  get_auth_type world_rereads
    (mk_state NULL conf_cached ∅ []) = Ret (Some "auth/none") (mk_state NULL conf_cached ∅ []) ∧
  get_plugin_dir world_rereads
    (mk_state NULL conf_cached ∅ []) = Ret (Some "/usr/local/lib") (mk_state NULL conf_cached ∅ []).
Proof.
  pose proof (conf_defaults_cached world_rereads (mk_state NULL conf_cached ∅ []))
    as (_ & _ & H).
  destruct H as [Ha Hd]; [vm_compute; discriminate|].
  split; [apply Ha|apply Hd]; reflexivity.
Defined.

(** The default type is "auth/none", not "none", and a reader that
    leaves [slurmd_port] at zero is called again by every later call. *)
Lemma get_auth_type_default_and_reread :
  get_auth_type world_complete initial_state
    = Ret (Some "auth/none")
        (mk_state NULL (mk_conf 7003 None (Some "auth/none")) ∅ [ev_read_slurm_conf_ctl]) ∧
  "auth/none" ≠ "none" ∧
  get_auth_type world_rereads initial_state
    = Ret (Some "auth/none")
        (mk_state NULL (mk_conf 0 None (Some "auth/none")) ∅ [ev_read_slurm_conf_ctl]) ∧
  get_auth_type world_rereads
    (mk_state NULL (mk_conf 0 None (Some "auth/none")) ∅ [ev_read_slurm_conf_ctl])
    = Ret (Some "auth/none")
        (mk_state NULL (mk_conf 0 None (Some "auth/none")) ∅
           [ev_read_slurm_conf_ctl; ev_read_slurm_conf_ctl]).
Proof. repeat split; try (vm_compute; reflexivity). discriminate. Qed.

(** ** Destroying a context whose rack is busy *)

(** C9. When the rack of an allocated context cannot be released,
    [slurm_auth_context_destroy] returns [SLURM_ERROR]; the only change
    to the state is the recorded call to [plugrack_destroy]: the heap,
    and so the context with its type string, rack, plugin and table, is
    as it was, and so are the global pointer and the configuration. A
    later destroy of the same context, once the rack can be released,
    succeeds and frees it. *)
Theorem slurm_auth_context_destroy_busy (w : World) (s : State) (c : ptr)
    (x : slurm_auth_context) :
  heap s !! c = Some x →
  plugin_list x ≠ NULL →
  w_plugrack_destroy w (plugin_list x) ≠ SLURM_SUCCESS →
  let s' := logged (ev_plugrack_destroy (plugin_list x)
                      (w_plugrack_destroy w (plugin_list x))) s in
  slurm_auth_context_destroy w c s = Ret SLURM_ERROR s' ∧
  heap s' = heap s ∧ heap s' !! c = Some x ∧
  g_context s' = g_context s ∧ conf s' = conf s ∧
  ∀ w', w_plugrack_destroy w' (plugin_list x) = SLURM_SUCCESS →
    slurm_auth_context_destroy w' c s'
      = Ret SLURM_SUCCESS
          (release c (logged (ev_plugrack_destroy (plugin_list x) SLURM_SUCCESS) s')).
Proof.
  intros Hx Hrack Hbusy s'.
  apply non_null_true in Hrack. apply Z.eqb_neq in Hbusy.
  split.
  { rewrite (slurm_auth_context_destroy_unfold w c s x Hx), Hrack. cbv zeta.
    by rewrite Hbusy. }
  repeat split; [done|].
  intros w' Hfree.
  rewrite (slurm_auth_context_destroy_unfold w' c s' x Hx), Hrack. cbv zeta.
  by rewrite Hfree.
Qed.

Lemma slurm_auth_context_destroy_busy_witness :
  slurm_auth_context_destroy world_busy 1 state_ready
    = Ret SLURM_ERROR (logged (ev_plugrack_destroy 300 SLURM_ERROR) state_ready) ∧
  heap (logged (ev_plugrack_destroy 300 SLURM_ERROR) state_ready) = heap state_ready.
Proof.
  assert (heap state_ready !! 1
          = Some (mk_context "auth/none" 300 500
                    (mk_ops 1001 1002 1003 1004 1005 1006 1007 1008 1009))) as Hx
    by (vm_compute; reflexivity).
  pose proof (slurm_auth_context_destroy_busy world_busy state_ready 1 _ Hx) as H.
  cbn [plugin_list world_busy w_plugrack_destroy] in H.
  destruct H as (Hrun & Hheap & _); [vm_compute; discriminate..|].
  split; [exact Hrun|exact Hheap].
Defined.

(** * Further properties of the context and its bindings *)

(** ** What resolution does to the context *)

Lemma calls_app_quiet (t u : list event) :
  Forall (λ e, is_call e = false) u → calls (t ++ u) = calls t.
Proof.
  intros H. unfold calls. rewrite filter_app.
  assert (filter (λ e, is_call e = true) u = []) as ->; [|apply app_nil_r].
  induction H as [|e u He _ IH]; [done|].
  rewrite filter_cons_False by congruence. exact IH.
Qed.

(** The binding half of [slurm_auth_get_ops], summarised: result, the
    context it leaves, and the calls it makes. *)
Lemma slurm_auth_get_ops_bind_summary (w : World) (c : ptr) (s : State)
    (x : slurm_auth_context) :
  heap s !! c = Some x →
  let plug := w_plugrack_use_by_type w (plugin_list x) (auth_type x) in
  let r := plugin_get_syms w plug syms in
  ∃ s',
    slurm_auth_get_ops_bind w c s
      = Ret (if non_null plug && negb (r.1 <? n_syms)
             then Some (ops_of_slots r.2) else None) s' ∧
    heap s' = <[c := mk_context (auth_type x) (plugin_list x) plug
                       (if non_null plug then ops_of_slots r.2 else ops x)]> (heap s) ∧
    g_context s' = g_context s ∧ conf s' = conf s ∧
    trace s' = trace s ++
      ev_plugrack_use_by_type (plugin_list x) (auth_type x) plug ::
      (if non_null plug then [ev_plugin_get_syms plug r.1] else []).
Proof.
  intros Hx. cbv zeta.
  rewrite (slurm_auth_get_ops_bind_unfold w c s x Hx). cbv zeta.
  set (plug := w_plugrack_use_by_type w _ _).
  unfold non_null, PLUGIN_INVALID_HANDLE.
  destruct (plug =? NULL); cbn [negb andb].
  - eexists. split; [reflexivity|]. by repeat split.
  - destruct (_ <? n_syms); cbn [negb]; (eexists; split; [reflexivity|]);
      (split; [cbn; by rewrite insert_insert_eq|]);
      (split; [done|]); (split; [done|]);
      cbn; by rewrite <- app_assoc.
Qed.

(** [slurm_auth_get_ops] summarised, for a context that is allocated:
    [rack] is the rack the context ends up with and [plug] the plugin
    the rack hands out for the context's type. *)
Lemma slurm_auth_get_ops_summary (w : World) (c : ptr) (s : State)
    (x : slurm_auth_context) :
  heap s !! c = Some x →
  let rack := if non_null (plugin_list x) then plugin_list x else w_plugrack_create w in
  let plug := w_plugrack_use_by_type w rack (auth_type x) in
  let r := plugin_get_syms w plug syms in
  let found := non_null rack && non_null plug in
  ∃ s',
    slurm_auth_get_ops w c s
      = Ret (if found && negb (r.1 <? n_syms) then Some (ops_of_slots r.2) else None) s' ∧
    heap s' = <[c := mk_context (auth_type x) rack
                       (if non_null rack then plug else cur_plugin x)
                       (if found then ops_of_slots r.2 else ops x)]> (heap s) ∧
    g_context s' = g_context s ∧
    calls (trace s') = calls (trace s) ∧
    (plugin_list x ≠ NULL →
       conf s' = conf s ∧
       trace s' = trace s ++
         ev_plugrack_use_by_type rack (auth_type x) plug ::
         (if non_null plug then [ev_plugin_get_syms plug r.1] else [])).
Proof.
  intros Hx. cbv zeta. unfold slurm_auth_get_ops.
  rewrite (bind_Ret _ _ _ _ _ (load_live _ _ _ Hx)).
  destruct (non_null (plugin_list x)) eqn:Hrack.
  { destruct (slurm_auth_get_ops_bind_summary w c s x Hx) as (s' & Hrun & Hh & Hg & Hc & Ht).
    cbv zeta in *. exists s'. rewrite !Hrack. cbn [andb].
    split; [exact Hrun|]. split; [exact Hh|]. split; [exact Hg|].
    split; [|intros _; by split].
    rewrite Ht. apply calls_app_quiet.
    destruct (non_null (w_plugrack_use_by_type w _ _)); repeat constructor. }
  cbv zeta. rewrite bind_log.
  set (rack := w_plugrack_create w).
  set (s0 := logged _ s).
  assert (heap s0 !! c = Some x) as Hx0 by done.
  rewrite (bind_Ret _ _ _ _ _ (assign_live c _ x s0 Hx0)).
  set (s1 := poke c _ s0).
  assert (heap s1 !! c = Some (with_plugin_list rack x)) as Hx1 by apply poke_lookup.
  assert (calls (trace s1) = calls (trace s)) as Hc1 by (by apply (calls_logged _ s)).
  destruct (non_null rack) eqn:Hnew; rewrite ?Hnew; cbn [andb].
  2:{ exists s1. split; [reflexivity|]. split; [done|]. split; [done|].
      split; [done|]. intros Hn. apply non_null_true in Hn. congruence. }
  rewrite !bind_log.
  set (s2 := logged _ (logged _ s1)).
  destruct (get_plugin_dir_frame w s2) as (d & s3 & Hrun & Hh3 & Hg3 & Hc3).
  rewrite (bind_Ret _ _ _ _ _ Hrun), bind_log.
  set (s4 := logged _ s3).
  assert (heap s4 !! c = Some (with_plugin_list rack x)) as Hx4.
  { change (heap s3 !! c = Some (with_plugin_list rack x)). by rewrite Hh3. }
  destruct (slurm_auth_get_ops_bind_summary w c s4 _ Hx4) as (s' & Hbind & Hh & Hg & Hc & Ht).
  cbv zeta in *. cbn [plugin_list auth_type ops with_plugin_list] in *.
  exists s'. split; [exact Hbind|].
  split.
  { rewrite Hh. change (heap s4) with (heap s3). rewrite Hh3.
    cbn. by rewrite insert_insert_eq. }
  split.
  { rewrite Hg. change (g_context s3 = g_context s). by rewrite Hg3. }
  split.
  { rewrite Ht.
    rewrite calls_app_quiet
      by (destruct (non_null (w_plugrack_use_by_type w _ _)); repeat constructor).
    etrans; [apply (calls_logged _ s3); reflexivity|]. rewrite Hc3.
    unfold s2. by rewrite !calls_logged. }
  intros Hn. apply non_null_true in Hn. congruence.
Qed.

(** X1. On an allocated context [slurm_auth_get_ops] always returns. It
    calls no plugin function, leaves the global pointer alone, keeps the
    context allocated with the type string it had, and changes no other
    context. *)
Theorem slurm_auth_get_ops_frame (w : World) (c : ptr) (s : State)
    (x : slurm_auth_context) :
  heap s !! c = Some x →
  ∃ r s' x', slurm_auth_get_ops w c s = Ret r s' ∧
    heap s' !! c = Some x' ∧ auth_type x' = auth_type x ∧
    (∀ c', c' ≠ c → heap s' !! c' = heap s !! c') ∧
    g_context s' = g_context s ∧
    calls (trace s') = calls (trace s).
Proof.
  intros Hx.
  destruct (slurm_auth_get_ops_summary w c s x Hx) as (s' & Hrun & Hh & Hg & Hc & _).
  cbv zeta in *. eexists _, s', _. split; [exact Hrun|].
  split; [rewrite Hh; apply lookup_insert_eq|].
  split; [reflexivity|]. split; [|done].
  intros c' Hne. rewrite Hh. by apply lookup_insert_ne.
Qed.

Lemma slurm_auth_get_ops_frame_witness :
  ∃ r s' x', slurm_auth_get_ops world_incomplete 1 state_stale = Ret r s' ∧
    heap s' !! 1 = Some x' ∧ auth_type x' = "auth/none" ∧
    g_context s' = 1 ∧ calls (trace s') = [].
Proof.
  destruct (slurm_auth_get_ops_frame world_incomplete 1 state_stale
              (mk_context "auth/none" 300 PLUGIN_INVALID_HANDLE ops_zero) eq_refl)
    as (r & s' & x' & Hrun & Hx' & Ht & _ & Hg & Hc).
  exists r, s', x'. repeat split; assumption.
Defined.

(** X2. On an allocated context [slurm_auth_get_ops] returns a table
    exactly when a rack is at hand (the context's own, or else a newly
    created one), the rack has a plugin of the context's type, and that
    plugin resolves all nine names; the table returned is then the one
    stored in the context, with nine slots filled. *)
Theorem slurm_auth_get_ops_succeeds_iff (w : World) (c : ptr) (s : State)
    (x : slurm_auth_context) :
  heap s !! c = Some x →
  let rack := if non_null (plugin_list x) then plugin_list x else w_plugrack_create w in
  let plug := w_plugrack_use_by_type w rack (auth_type x) in
  ∃ r s', slurm_auth_get_ops w c s = Ret r s' ∧
    (is_Some r ↔
       rack ≠ NULL ∧ plug ≠ PLUGIN_INVALID_HANDLE ∧
       (plugin_get_syms w plug syms).1 = n_syms) ∧
    (∀ o, r = Some o → ops <$> heap s' !! c = Some o ∧ populated o = 9%nat).
Proof.
  intros Hx.
  destruct (slurm_auth_get_ops_summary w c s x Hx) as (s' & Hrun & Hh & _).
  cbv zeta in *.
  set (rack := if non_null (plugin_list x) then _ else _) in *.
  set (plug := w_plugrack_use_by_type w rack _) in *.
  destruct (plugin_get_syms_count w plug) as [Hcount Hle]. cbv zeta in *.
  assert (n_syms = 9) as Hn by reflexivity.
  eexists _, s'. split; [exact Hrun|].
  destruct (non_null rack) eqn:Hr; cbn [andb].
  2:{ apply non_null_false in Hr. split; [split|done].
      - by intros [? ?].
      - by intros (? & _). }
  destruct (non_null plug) eqn:Hp; cbn [andb].
  2:{ apply non_null_false in Hp. split; [split|done].
      - by intros [? ?].
      - by intros (_ & ? & _). }
  apply non_null_true in Hr, Hp.
  destruct (Z.ltb_spec (plugin_get_syms w plug syms).1 n_syms) as [Hlt|Hge]; cbn [negb].
  { split; [split|done].
    - by intros [? ?].
    - intros (_ & _ & ?). lia. }
  split; [split|].
  - intros _. repeat split; [done..|lia].
  - eauto.
  - intros o [= <-]. split.
    + rewrite Hh, lookup_insert_eq. reflexivity.
    + apply Nat2Z.inj.
      change (Z.of_nat (populated (ops_of_slots (plugin_get_syms w plug syms).2))
              = Z.of_nat 9).
      rewrite <- Hcount. lia.
Qed.

Lemma slurm_auth_get_ops_succeeds_iff_witness :
  ∃ s', slurm_auth_get_ops world_complete 1 state_stale
          = Ret (Some (mk_ops 1001 1002 1003 1004 1005 1006 1007 1008 1009)) s'.
Proof.
  destruct (slurm_auth_get_ops_succeeds_iff world_complete 1 state_stale
              (mk_context "auth/none" 300 PLUGIN_INVALID_HANDLE ops_zero) eq_refl)
    as (r & s' & Hrun & [_ Hyes] & _).
  exists s'. rewrite Hrun.
  destruct Hyes as [o ->]; [vm_compute; repeat split; discriminate|].
  vm_compute in Hrun. by injection Hrun as -> _.
Defined.

(** X3. What [slurm_auth_get_ops] stores in an allocated context. When
    no rack can be had the context is left exactly as it was. When the
    rack has no plugin of the context's type, the current plugin is set
    to the invalid handle and the table is left as it was. When a plugin
    is found the table is overwritten with what the plugin resolves,
    whether or not all nine names resolved, and the number of filled
    slots is the count [plugin_get_syms] returned. *)
Theorem slurm_auth_get_ops_stores (w : World) (c : ptr) (s : State)
    (x : slurm_auth_context) :
  heap s !! c = Some x →
  let rack := if non_null (plugin_list x) then plugin_list x else w_plugrack_create w in
  let plug := w_plugrack_use_by_type w rack (auth_type x) in
  let r := plugin_get_syms w plug syms in
  ∃ res s' x', slurm_auth_get_ops w c s = Ret res s' ∧
    heap s' !! c = Some x' ∧
    plugin_list x' = rack ∧
    (rack = NULL → x' = x ∧ res = None) ∧
    (rack ≠ NULL → plug = PLUGIN_INVALID_HANDLE →
       cur_plugin x' = PLUGIN_INVALID_HANDLE ∧ ops x' = ops x ∧ res = None) ∧
    (rack ≠ NULL → plug ≠ PLUGIN_INVALID_HANDLE →
       cur_plugin x' = plug ∧ ops x' = ops_of_slots r.2 ∧
       Z.of_nat (populated (ops x')) = r.1).
Proof.
  intros Hx.
  destruct (slurm_auth_get_ops_summary w c s x Hx) as (s' & Hrun & Hh & _).
  cbv zeta in *.
  destruct (non_null (plugin_list x)) eqn:Hown.
  - set (rack := plugin_list x) in *.
    set (plug := w_plugrack_use_by_type w rack _) in *.
    destruct (plugin_get_syms_count w plug) as [Hcount _]. cbv zeta in Hcount.
    eexists _, s', _. split; [exact Hrun|].
    split; [rewrite Hh; apply lookup_insert_eq|].
    split; [reflexivity|]. rewrite Hown. cbn [andb cur_plugin ops].
    apply non_null_true in Hown.
    split; [done|]. split.
    + intros _ Hp. pose proof (proj2 (non_null_false plug) Hp) as Hb.
      rewrite Hb. by cbn [andb].
    + intros _ Hp. pose proof (proj2 (non_null_true plug) Hp) as Hb.
      rewrite Hb. cbn [andb]. repeat split; by rewrite ?Hcount.
  - set (rack := w_plugrack_create w) in *.
    set (plug := w_plugrack_use_by_type w rack _) in *.
    destruct (plugin_get_syms_count w plug) as [Hcount _]. cbv zeta in Hcount.
    eexists _, s', _. split; [exact Hrun|].
    split; [rewrite Hh; apply lookup_insert_eq|].
    split; [reflexivity|]. cbn [cur_plugin ops].
    apply non_null_false in Hown.
    split; [|split].
    + intros Hr. rewrite Hr. change (non_null NULL) with false. cbn [andb].
      split; [|done]. destruct x as [t l p o]. cbn in *. by rewrite Hown.
    + intros Hr Hp. apply non_null_true in Hr.
      pose proof (proj2 (non_null_false plug) Hp) as Hb.
      rewrite Hr, Hb. by cbn [andb].
    + intros Hr Hp. apply non_null_true in Hr.
      pose proof (proj2 (non_null_true plug) Hp) as Hb.
      rewrite Hr, Hb. cbn [andb]. repeat split; by rewrite ?Hcount.
Qed.

Lemma slurm_auth_get_ops_stores_witness :
  ∃ res s' x', slurm_auth_get_ops world_incomplete 1 state_stale = Ret res s' ∧
    heap s' !! 1 = Some x' ∧ ops x' = ops_partial ∧ populated (ops x') = 8%nat.
Proof.
  destruct (slurm_auth_get_ops_stores world_incomplete 1 state_stale
              (mk_context "auth/none" 300 PLUGIN_INVALID_HANDLE ops_zero) eq_refl)
    as (res & s' & x' & Hrun & Hx' & _ & _ & _ & Hfound).
  destruct Hfound as (_ & Hops & Hpop); [vm_compute; discriminate..|].
  exists res, s', x'. split; [exact Hrun|]. split; [exact Hx'|].
  split; [exact Hops|]. apply Nat2Z.inj. exact Hpop.
Defined.

(** X4. The rack is created on first reference only. On a context that
    already has a rack, [slurm_auth_get_ops] keeps that rack, does not
    touch the configuration cache, and makes no other outside call than
    the request for the plugin and, when one is found, the resolution
    of its symbols: no rack is created and no directory is read. *)
Theorem slurm_auth_get_ops_reuses_rack (w : World) (c : ptr) (s : State)
    (x : slurm_auth_context) :
  heap s !! c = Some x →
  plugin_list x ≠ NULL →
  ∃ r s' x', slurm_auth_get_ops w c s = Ret r s' ∧
    heap s' !! c = Some x' ∧
    plugin_list x' = plugin_list x ∧
    conf s' = conf s ∧
    let ask := ev_plugrack_use_by_type (plugin_list x) (auth_type x) (cur_plugin x') in
    (cur_plugin x' = PLUGIN_INVALID_HANDLE ∧ trace s' = trace s ++ [ask]) ∨
    (cur_plugin x' ≠ PLUGIN_INVALID_HANDLE ∧
     ∃ n, trace s' = trace s ++ [ask; ev_plugin_get_syms (cur_plugin x') n]).
Proof.
  intros Hx Hown.
  destruct (slurm_auth_get_ops_summary w c s x Hx) as (s' & Hrun & Hh & _ & _ & Hkeep).
  destruct (Hkeep Hown) as [Hconf Htrace]. cbv zeta in *.
  apply non_null_true in Hown. rewrite !Hown in *. cbn [andb] in *.
  eexists _, s', _. split; [exact Hrun|].
  split; [rewrite Hh; apply lookup_insert_eq|].
  split; [reflexivity|]. split; [exact Hconf|]. cbn [cur_plugin].
  destruct (non_null (w_plugrack_use_by_type w _ _)) eqn:Hp.
  - right. apply non_null_true in Hp. split; [exact Hp|]. eexists. exact Htrace.
  - left. apply non_null_false in Hp. split; [exact Hp|exact Htrace].
Qed.

Lemma slurm_auth_get_ops_reuses_rack_witness :
  ∃ r s' x', slurm_auth_get_ops world_complete 1 state_ready = Ret r s' ∧
    heap s' !! 1 = Some x' ∧ plugin_list x' = 300 ∧ conf s' = conf_cached.
Proof.
  destruct (slurm_auth_get_ops_reuses_rack world_complete 1 state_ready
              (mk_context "auth/none" 300 500
                 (mk_ops 1001 1002 1003 1004 1005 1006 1007 1008 1009)) eq_refl)
    as (r & s' & x' & Hrun & Hx' & Hrack & Hconf & _); [vm_compute; discriminate|].
  exists r, s', x'. repeat split; assumption.
Defined.

(** ** What initialisation does to the state *)

Lemma get_auth_type_trace (w : World) (s : State) :
  ∃ v s', get_auth_type w s = Ret (Some v) s' ∧
    heap s' = heap s ∧ g_context s' = g_context s ∧
    (trace s' = trace s ∨ trace s' = trace s ++ [ev_read_slurm_conf_ctl]).
Proof.
  rewrite get_auth_type_unfold. cbv zeta.
  destruct (slurmd_port (conf s) =? 0).
  - cbn [conf]. destruct (authtype (w_read_slurm_conf_ctl w (conf s)));
      eexists _, _; (split; [reflexivity|]); repeat split; by right.
  - destruct (authtype (conf s)); eexists _, _; (split; [reflexivity|]);
      repeat split; by left.
Qed.

(** [slurm_auth_init] on a null [g_context], in terms of the heap: either
    the copy of the type string fails and nothing is allocated, or one
    cell is allocated, at the address [g_context] ends up with. *)
Lemma slurm_auth_init_effect (w : World) (s : State) :
  g_context s = NULL →
  ∃ rc s', slurm_auth_init w s = Ret rc s' ∧
    if w_strdup_ok w then
      ∃ x', g_context s' ≠ NULL ∧ heap s !! g_context s' = None ∧
        heap s' = <[g_context s' := x']> (heap s) ∧
        (rc = SLURM_SUCCESS → populated (ops x') = 9%nat)
    else
      rc = SLURM_ERROR ∧ g_context s' = NULL ∧ heap s' = heap s ∧
      ∃ n, (n ≤ 2)%nat ∧ trace s' = trace s ++ replicate n ev_read_slurm_conf_ctl.
Proof.
  intros Hg. unfold slurm_auth_init. rewrite bind_get_state.
  apply non_null_false in Hg as Hg'. rewrite Hg'.
  destruct (get_auth_type_trace w s) as (v & s1 & Hrun & Hh1 & Hg1 & Ht1).
  rewrite (bind_Ret _ _ _ _ _ Hrun).
  pose proof (slurm_auth_context_create_unfold w v s1) as Hcr. cbv zeta in Hcr.
  destruct (xmalloc_fresh s1) as [Hnn Hfresh].
  set (a := fresh _) in *.
  destruct (w_strdup_ok w).
  - rewrite (bind_Ret _ _ _ _ _ Hcr), bind_set_g_context, bind_get_state.
    cbn [g_context].
    destruct (Z.eqb_spec a NULL) as [|_]; [done|].
    set (s3 := mk_state a _ _ _).
    assert (heap s3 !! a = Some (mk_context v NULL PLUGIN_INVALID_HANDLE ops_zero)) as Hx3
      by apply lookup_insert_eq.
    destruct (slurm_auth_get_ops_summary w a s3 _ Hx3) as (s' & Hops & Hh & Hga & _).
    cbv zeta in *. cbn [plugin_list auth_type cur_plugin ops] in *.
    change (non_null NULL) with false in *. cbv iota in *.
    rewrite (bind_Ret _ _ _ _ _ Hops).
    assert (g_context s' = a) as Hga' by (by rewrite Hga).
    destruct (plugin_get_syms_count w
                (w_plugrack_use_by_type w (w_plugrack_create w) v)) as [Hcount Hle].
    cbv zeta in *.
    set (found := non_null (w_plugrack_create w) && non_null _) in *.
    set (r := plugin_get_syms w _ syms) in *.
    assert (n_syms = 9) as Hn by reflexivity.
    exists (if found && negb (r.1 <? n_syms) then SLURM_SUCCESS else SLURM_ERROR), s'.
    split; [by destruct (found && negb (r.1 <? n_syms))|].
    eexists. rewrite Hga'. split; [done|]. split; [by rewrite <- Hh1|].
    split.
    { rewrite Hh. cbn [heap s3 poke]. rewrite insert_insert_eq. by rewrite Hh1. }
    cbn [ops]. destruct found; cbn [andb]; [|done].
    destruct (Z.ltb_spec r.1 n_syms); cbn [negb]; [done|].
    intros _. apply Nat2Z.inj. rewrite <- Hcount. lia.
  - rewrite (bind_Ret _ _ _ _ _ Hcr), bind_set_g_context, bind_get_state.
    cbn [g_context]. change (NULL =? NULL) with true. cbv iota.
    set (s2 := mk_state NULL _ _ _).
    destruct (get_auth_type_trace w s2) as (v' & s3 & Hrun' & Hh3 & Hg3 & Ht3).
    rewrite (bind_Ret _ _ _ _ _ Hrun').
    exists SLURM_ERROR, s3. split; [reflexivity|].
    split; [done|]. split; [by rewrite Hg3|]. split; [by rewrite Hh3|].
    change (trace s2) with (trace s1) in Ht3.
    destruct Ht1 as [Ht1|Ht1], Ht3 as [Ht3|Ht3]; rewrite Ht3, Ht1.
    + exists 0%nat. split; [lia|]. by rewrite app_nil_r.
    + exists 1%nat. split; [lia|done].
    + exists 1%nat. split; [lia|done].
    + exists 2%nat. split; [lia|]. by rewrite <- app_assoc.
Qed.

Lemma g_first_use {A} (w : World) (s s' : State) (x : slurm_auth_context)
    (k : slurm_auth_ops_t → M A) (dflt : A) :
  g_context s = NULL →
  slurm_auth_init w s = Ret SLURM_SUCCESS s' →
  heap s' !! g_context s' = Some x →
  (ok ← g_context_ready w;
   if (ok : bool) then o ← g_context_ops; k o else mret dflt) s
  = k (ops x) s'.
Proof.
  intros Hg Hinit Hx.
  assert (g_context_ready w s = Ret true s') as Hready.
  { unfold g_context_ready. rewrite bind_get_state.
    apply non_null_false in Hg. rewrite Hg. cbn [negb].
    by rewrite (bind_Ret _ _ _ _ _ Hinit). }
  rewrite (bind_Ret _ _ _ _ _ Hready).
  by rewrite (bind_Ret _ _ _ _ _ (g_context_ops_live s' x Hx)).
Qed.

(** X5. First use of a global binding. When [g_context] is null and the
    initialisation the binding triggers succeeds, the global context
    that results has all nine slots filled, and the binding goes on, in
    the same call, to call the plugin function of its slot with the
    arguments it was given and to return what the plugin returns. *)
Theorem g_bindings_first_use (w : World) (s s' : State) (cred buf secs : ptr) :
  g_context s = NULL →
  slurm_auth_init w s = Ret SLURM_SUCCESS s' →
  ∃ x, heap s' !! g_context s' = Some x ∧ populated (ops x) = 9%nat ∧
    let o := ops x in
    g_slurm_auth_alloc w s
      = Ret (w_mech w (alloc o) []) (logged (ev_call (alloc o) []) s') ∧
    g_slurm_auth_free w cred s = Ret () (logged (ev_call (free o) [cred]) s') ∧
    g_slurm_auth_activate w cred secs s
      = Ret (w_mech w (activate o) [cred; secs])
            (logged (ev_call (activate o) [cred; secs]) s') ∧
    g_slurm_auth_verify w cred s
      = Ret (w_mech w (verify o) [cred]) (logged (ev_call (verify o) [cred]) s') ∧
    g_slurm_auth_get_uid w cred s
      = Ret (w_mech w (get_uid o) [cred]) (logged (ev_call (get_uid o) [cred]) s') ∧
    g_slurm_auth_get_gid w cred s
      = Ret (w_mech w (get_gid o) [cred]) (logged (ev_call (get_gid o) [cred]) s') ∧
    g_slurm_auth_pack w cred buf s = Ret () (logged (ev_call (pack o) [cred; buf]) s') ∧
    g_slurm_auth_unpack w cred buf s
      = Ret (w_mech w (unpack o) [cred; buf])
            (logged (ev_call (unpack o) [cred; buf]) s') ∧
    g_slurm_auth_print w cred buf s = Ret () (logged (ev_call (print o) [cred; buf]) s').
Proof.
  intros Hg Hinit.
  destruct (slurm_auth_init_spec w s Hg) as (rc & s'' & Hrun & _ & H).
  rewrite Hinit in Hrun. injection Hrun as <- <-.
  destruct (w_strdup_ok w); [|by destruct H as (? & _)].
  destruct H as (_ & _ & x & Hx & [(_ & Hfull & _) | ?]); [|done].
  exists x. split; [exact Hx|]. split; [exact Hfull|]. cbv zeta.
  destruct (populated_all _ Hfull) as (H1 & H2 & H3 & H4 & H5 & H6 & H7 & H8 & H9).
  pose proof (λ A k d, @g_first_use A w s s' x k d Hg Hinit Hx) as D.
  repeat split.
  - etrans; [apply D|]. apply (invoke_non_null w _ _ s' H1).
  - etrans; [apply D|].
    by rewrite (bind_Ret _ _ _ _ _ (invoke_non_null w _ _ s' H2)).
  - etrans; [apply D|]. apply (invoke_non_null w _ _ s' H3).
  - etrans; [apply D|]. apply (invoke_non_null w _ _ s' H4).
  - etrans; [apply D|]. apply (invoke_non_null w _ _ s' H5).
  - etrans; [apply D|]. apply (invoke_non_null w _ _ s' H6).
  - etrans; [apply D|].
    by rewrite (bind_Ret _ _ _ _ _ (invoke_non_null w _ _ s' H7)).
  - etrans; [apply D|]. apply (invoke_non_null w _ _ s' H8).
  - etrans; [apply D|].
    by rewrite (bind_Ret _ _ _ _ _ (invoke_non_null w _ _ s' H9)).
Qed.

Lemma g_bindings_first_use_witness :
  g_slurm_auth_alloc world_complete initial_state
    = Ret 7000 (logged (ev_call 1001 []) state_ready) ∧
  g_slurm_auth_get_uid world_complete 77 initial_state
    = Ret 42 (logged (ev_call 1005 [77]) state_ready).
Proof.
  assert (slurm_auth_init world_complete initial_state = Ret SLURM_SUCCESS state_ready)
    as Hinit by (vm_compute; reflexivity).
  destruct (g_bindings_first_use world_complete initial_state state_ready 77 88 5
              eq_refl Hinit) as (x & Hx & _ & H).
  vm_compute in Hx. injection Hx as <-. cbv zeta in H.
  destruct H as (Ha & _ & _ & _ & Hu & _).
  split; [exact Ha|exact Hu].
Defined.

(** X6. [slurm_auth_init] never crashes and never disturbs the contexts
    that exist: every allocated context is afterwards as it was, and the
    heap either is unchanged or has gained exactly one cell, at a
    non-null address that was free, to which [g_context] now points. No
    plugin function is called. *)
Theorem slurm_auth_init_frame (w : World) (s : State) :
  ∃ rc s', slurm_auth_init w s = Ret rc s' ∧
    (rc = SLURM_SUCCESS ∨ rc = SLURM_ERROR) ∧
    (∀ c, is_Some (heap s !! c) → heap s' !! c = heap s !! c) ∧
    (heap s' = heap s ∨
     g_context s' ≠ NULL ∧ heap s !! g_context s' = None ∧
     dom (heap s') = {[g_context s']} ∪ dom (heap s)) ∧
    calls (trace s') = calls (trace s).
Proof.
  destruct (decide (g_context s = NULL)) as [Hg|Hg].
  2:{ exists SLURM_SUCCESS, s. split; [by apply slurm_auth_init_set|].
      repeat split; auto. }
  destruct (slurm_auth_init_effect w s Hg) as (rc & s' & Hrun & H).
  destruct (slurm_auth_init_spec w s Hg) as (rc' & s'' & Hrun' & Hcalls & H').
  rewrite Hrun in Hrun'. injection Hrun' as <- <-.
  exists rc, s'. split; [exact Hrun|].
  destruct (w_strdup_ok w).
  - destruct H as (x' & Hnn & Hfree & Hh & _).
    destruct H' as (_ & _ & x'' & _ & Hrc).
    split; [destruct Hrc as [(-> & _) | ->]; auto|].
    split; [|split; [|exact Hcalls]].
    + intros c [y Hy]. rewrite Hh. apply lookup_insert_ne. congruence.
    + right. split; [exact Hnn|]. split; [exact Hfree|].
      rewrite Hh. apply dom_insert_L.
  - clear H'. destruct H as (-> & _ & Hh & _).
    split; [auto|]. split; [by rewrite Hh|]. split; [by left|exact Hcalls].
Qed.

(** X7. When the copy of the type string fails, [slurm_auth_init]
    returns [SLURM_ERROR] having allocated nothing and created no rack:
    the heap is as it was, [g_context] is still null, and the only
    outside calls are at most two reads of the configuration. The next
    [slurm_auth_init], in a world where the copy succeeds, goes through
    the construction again and sets [g_context]. *)
Theorem slurm_auth_init_copy_failure (w w2 : World) (s : State) :
  g_context s = NULL →
  w_strdup_ok w = false →
  w_strdup_ok w2 = true →
  ∃ s', slurm_auth_init w s = Ret SLURM_ERROR s' ∧
    g_context s' = NULL ∧ heap s' = heap s ∧
    (∃ n, (n ≤ 2)%nat ∧ trace s' = trace s ++ replicate n ev_read_slurm_conf_ctl) ∧
    ∃ rc s'', slurm_auth_init w2 s' = Ret rc s'' ∧
      g_context s'' ≠ NULL ∧ is_Some (heap s'' !! g_context s'').
Proof.
  intros Hg Hoom Hok.
  destruct (slurm_auth_init_effect w s Hg) as (rc & s' & Hrun & H).
  rewrite Hoom in H. destruct H as (-> & Hg' & Hh & Ht).
  exists s'. split; [exact Hrun|]. split; [exact Hg'|]. split; [exact Hh|].
  split; [exact Ht|].
  destruct (slurm_auth_init_effect w2 s' Hg') as (rc & s'' & Hrun2 & H).
  rewrite Hok in H. destruct H as (x' & Hnn & _ & Hh2 & _).
  exists rc, s''. split; [exact Hrun2|]. split; [exact Hnn|].
  rewrite Hh2, lookup_insert_eq. by eexists.
Qed.

Lemma slurm_auth_init_copy_failure_witness :
  ∃ s', slurm_auth_init world_oom initial_state = Ret SLURM_ERROR s' ∧
    g_context s' = NULL ∧ heap s' = ∅ ∧
    ∃ rc s'', slurm_auth_init world_complete s' = Ret rc s'' ∧ g_context s'' ≠ NULL.
Proof.
  destruct (slurm_auth_init_copy_failure world_oom world_complete initial_state
              eq_refl eq_refl eq_refl)
    as (s' & Hrun & Hg & Hh & _ & rc & s'' & Hrun2 & Hg2 & _).
  exists s'. split; [exact Hrun|]. split; [exact Hg|]. split; [exact Hh|].
  exists rc, s''. split; [exact Hrun2|exact Hg2].
Defined.

(** ** The bindings as dispatchers *)

(** Rewrite the null tests of an explicit-context binding with the facts
    at hand, read the context and rewrite the slot tests. *)
Ltac c_enter Hx :=
  cbv beta delta [c_slurm_auth_alloc c_slurm_auth_free c_slurm_auth_activate
    c_slurm_auth_verify c_slurm_auth_get_uid c_slurm_auth_get_gid
    c_slurm_auth_pack c_slurm_auth_unpack c_slurm_auth_print];
  repeat match goal with
         | H : ?p ≠ NULL |- context [?p =? NULL] =>
             rewrite (proj2 (Z.eqb_neq p NULL) H)
         end;
  cbn [orb];
  rewrite (bind_Ret _ _ _ _ _ (load_live _ _ _ Hx));
  repeat match goal with
         | H : ?p ≠ NULL |- context [non_null ?p] =>
             rewrite (proj2 (non_null_true p) H)
         end.

Lemma invoke_unit_non_null w fn args s :
  fn ≠ NULL → (invoke w fn args ≫= λ _, mret ()) s = Ret () (logged (ev_call fn args) s).
Proof. intros H. by rewrite (bind_Ret _ _ _ _ _ (invoke_non_null w fn args s H)). Qed.

(** X8. Each slot is dispatched on its own. Given an allocated context
    and non-null arguments, an explicit-context binding whose slot is
    filled calls the plugin function in that slot with the arguments
    as given and returns what it returns, whatever the other slots
    hold; for [get_uid] and [get_gid] this needs the [verify] slot
    filled as well. *)
Theorem c_bindings_forward (w : World) (s : State) (c cred buf secs : ptr)
    (x : slurm_auth_context) :
  heap s !! c = Some x →
  c ≠ NULL → cred ≠ NULL → buf ≠ NULL →
  let o := ops x in
  (alloc o ≠ NULL →
     c_slurm_auth_alloc w c s
       = Ret (w_mech w (alloc o) []) (logged (ev_call (alloc o) []) s)) ∧
  (free o ≠ NULL →
     c_slurm_auth_free w c cred s = Ret () (logged (ev_call (free o) [cred]) s)) ∧
  (activate o ≠ NULL →
     c_slurm_auth_activate w c cred secs s
       = Ret (w_mech w (activate o) [cred; secs])
             (logged (ev_call (activate o) [cred; secs]) s)) ∧
  (verify o ≠ NULL →
     c_slurm_auth_verify w c cred s
       = Ret (w_mech w (verify o) [cred]) (logged (ev_call (verify o) [cred]) s)) ∧
  (verify o ≠ NULL → get_uid o ≠ NULL →
     c_slurm_auth_get_uid w c cred s
       = Ret (w_mech w (get_uid o) [cred]) (logged (ev_call (get_uid o) [cred]) s)) ∧
  (verify o ≠ NULL → get_gid o ≠ NULL →
     c_slurm_auth_get_gid w c cred s
       = Ret (w_mech w (get_gid o) [cred]) (logged (ev_call (get_gid o) [cred]) s)) ∧
  (pack o ≠ NULL →
     c_slurm_auth_pack w c cred buf s
       = Ret () (logged (ev_call (pack o) [cred; buf]) s)) ∧
  (unpack o ≠ NULL →
     c_slurm_auth_unpack w c cred buf s
       = Ret (w_mech w (unpack o) [cred; buf])
             (logged (ev_call (unpack o) [cred; buf]) s)) ∧
  (print o ≠ NULL →
     c_slurm_auth_print w c cred buf s
       = Ret () (logged (ev_call (print o) [cred; buf]) s)).
Proof.
  intros Hx Hc Hcred Hbuf o. subst o.
  repeat split; intros; c_enter Hx;
    first [ by apply invoke_non_null | by apply invoke_unit_non_null ].
Qed.

Lemma c_bindings_forward_witness :
  c_slurm_auth_verify world_complete 1 77 state_verify_only
    = Ret 0 (logged (ev_call 1004 [77]) state_verify_only) ∧
  c_slurm_auth_alloc world_incomplete 1 state_partial
    = Ret 7000 (logged (ev_call 1001 []) state_partial).
Proof.
  split.
  - pose proof (c_bindings_forward world_complete state_verify_only 1 77 88 5
                  (mk_context "auth/none" 300 500 ops_verify_only) eq_refl)
      as H.
    destruct H as (_ & _ & _ & Hv & _); [vm_compute; discriminate..|].
    apply Hv. vm_compute. discriminate.
  - pose proof (c_bindings_forward world_incomplete state_partial 1 77 88 5
                  (mk_context "auth/none" 300 500 ops_partial) eq_refl)
      as H.
    destruct H as (Ha & _); [vm_compute; discriminate..|].
    apply Ha. vm_compute. discriminate.
Defined.

(** X9. On the global context, once its table is fully populated, the
    explicit-context binding given non-null arguments and the global
    binding given the same arguments do the same thing: same call, same
    result, same final state. *)
Theorem c_and_g_bindings_agree (w : World) (s : State) (x : slurm_auth_context)
    (cred buf secs : ptr) :
  g_context s ≠ NULL →
  heap s !! g_context s = Some x →
  populated (ops x) = 9%nat →
  cred ≠ NULL → buf ≠ NULL →
  c_slurm_auth_alloc w (g_context s) s = g_slurm_auth_alloc w s ∧
  c_slurm_auth_free w (g_context s) cred s = g_slurm_auth_free w cred s ∧
  c_slurm_auth_activate w (g_context s) cred secs s = g_slurm_auth_activate w cred secs s ∧
  c_slurm_auth_verify w (g_context s) cred s = g_slurm_auth_verify w cred s ∧
  c_slurm_auth_get_uid w (g_context s) cred s = g_slurm_auth_get_uid w cred s ∧
  c_slurm_auth_get_gid w (g_context s) cred s = g_slurm_auth_get_gid w cred s ∧
  c_slurm_auth_pack w (g_context s) cred buf s = g_slurm_auth_pack w cred buf s ∧
  c_slurm_auth_unpack w (g_context s) cred buf s = g_slurm_auth_unpack w cred buf s ∧
  c_slurm_auth_print w (g_context s) cred buf s = g_slurm_auth_print w cred buf s.
Proof.
  intros Hg Hx Hfull Hcred Hbuf.
  destruct (populated_all _ Hfull) as (H1 & H2 & H3 & H4 & H5 & H6 & H7 & H8 & H9).
  pose proof (λ A k d, @g_dispatch A w s x k d Hg Hx) as D.
  repeat split; (etrans; [|symmetry; apply D]); c_enter Hx; reflexivity.
Qed.

Lemma c_and_g_bindings_agree_witness :
  c_slurm_auth_verify world_complete 1 77 state_ready
    = g_slurm_auth_verify world_complete 77 state_ready ∧
  c_slurm_auth_pack world_complete 1 77 88 state_ready
    = g_slurm_auth_pack world_complete 77 88 state_ready.
Proof.
  assert (g_context state_ready ≠ NULL) as Hg by (vm_compute; discriminate).
  assert (77 ≠ NULL) as Hcred by (vm_compute; discriminate).
  assert (88 ≠ NULL) as Hbuf by (vm_compute; discriminate).
  pose proof (c_and_g_bindings_agree world_complete state_ready
                (mk_context "auth/none" 300 500
                   (mk_ops 1001 1002 1003 1004 1005 1006 1007 1008 1009))
                77 88 5 Hg eq_refl eq_refl Hcred Hbuf) as H.
  split; apply H.
Defined.

Lemma only_calls_ret {A} (a : A) s : only_calls s (Ret a s).
Proof. by left. Qed.

Lemma only_calls_invoke w fn args s : only_calls s (invoke w fn args s).
Proof.
  unfold invoke. destruct (non_null fn) eqn:H; [|exact I].
  apply non_null_true in H. right. by exists fn, args.
Qed.

Lemma only_calls_invoke_unit w fn args s :
  only_calls s ((invoke w fn args ≫= λ _, mret ()) s).
Proof.
  unfold invoke. destruct (non_null fn) eqn:H; [|exact I].
  apply non_null_true in H. right. by exists fn, args.
Qed.

Lemma only_calls_guarded {A} (c : ptr) (guard : slurm_auth_context → bool)
    (k : slurm_auth_context → M A) (dflt : A) (s : State) :
  (∀ x, only_calls s (k x s)) →
  only_calls s ((x ← load c; if guard x then k x else mret dflt) s).
Proof.
  intros Hk. unfold mbind, M_bind, load.
  destruct (heap s !! c) as [x|]; [|exact I].
  destruct (guard x); [apply Hk|by left].
Qed.

(** X10. Whatever it is given, an explicit-context binding that returns
    has changed nothing in the state except that at most one plugin
    function was called: the context and its table, every other
    context, the global pointer and the configuration cache are as they
    were. *)
Theorem c_bindings_only_call (w : World) (s : State) (c cred buf secs : ptr) :
  only_calls s (c_slurm_auth_alloc w c s) ∧
  only_calls s (c_slurm_auth_free w c cred s) ∧
  only_calls s (c_slurm_auth_activate w c cred secs s) ∧
  only_calls s (c_slurm_auth_verify w c cred s) ∧
  only_calls s (c_slurm_auth_get_uid w c cred s) ∧
  only_calls s (c_slurm_auth_get_gid w c cred s) ∧
  only_calls s (c_slurm_auth_pack w c cred buf s) ∧
  only_calls s (c_slurm_auth_unpack w c cred buf s) ∧
  only_calls s (c_slurm_auth_print w c cred buf s).
Proof.
  repeat split.
  - unfold c_slurm_auth_alloc. destruct (c =? NULL); [by left|].
    apply (only_calls_guarded c (λ x, non_null (alloc (ops x)))).
    intros x. apply only_calls_invoke.
  - unfold c_slurm_auth_free. destruct (_ || _); [by left|].
    apply (only_calls_guarded c (λ x, non_null (free (ops x)))).
    intros x. apply only_calls_invoke_unit.
  - unfold c_slurm_auth_activate. destruct (_ || _); [by left|].
    apply (only_calls_guarded c (λ x, non_null (activate (ops x)))).
    intros x. apply only_calls_invoke.
  - unfold c_slurm_auth_verify. destruct (_ || _); [by left|].
    apply (only_calls_guarded c (λ x, non_null (verify (ops x)))).
    intros x. apply only_calls_invoke.
  - unfold c_slurm_auth_get_uid. destruct (_ || _); [by left|].
    apply (only_calls_guarded c (λ x, non_null (verify (ops x)))).
    intros x. apply only_calls_invoke.
  - unfold c_slurm_auth_get_gid. destruct (_ || _); [by left|].
    apply (only_calls_guarded c (λ x, non_null (verify (ops x)))).
    intros x. apply only_calls_invoke.
  - unfold c_slurm_auth_pack. destruct (_ || _); [by left|].
    apply (only_calls_guarded c (λ x, non_null (pack (ops x)))).
    intros x. apply only_calls_invoke_unit.
  - unfold c_slurm_auth_unpack. destruct (_ || _); [by left|].
    apply (only_calls_guarded c (λ x, non_null (unpack (ops x)))).
    intros x. apply only_calls_invoke.
  - unfold c_slurm_auth_print. destruct (_ || _); [by left|].
    apply (only_calls_guarded c (λ x, non_null (print (ops x)))).
    intros x. apply only_calls_invoke_unit.
Qed.

(** X11. The global bindings do not test the slot they call through.
    With [g_context] set and allocated, a binding whose slot is null
    calls through the null pointer. *)
Theorem g_bindings_null_slot (w : World) (s : State) (x : slurm_auth_context)
    (cred buf secs : ptr) :
  g_context s ≠ NULL →
  heap s !! g_context s = Some x →
  let o := ops x in
  (alloc o = NULL → g_slurm_auth_alloc w s = Crash) ∧
  (free o = NULL → g_slurm_auth_free w cred s = Crash) ∧
  (activate o = NULL → g_slurm_auth_activate w cred secs s = Crash) ∧
  (verify o = NULL → g_slurm_auth_verify w cred s = Crash) ∧
  (get_uid o = NULL → g_slurm_auth_get_uid w cred s = Crash) ∧
  (get_gid o = NULL → g_slurm_auth_get_gid w cred s = Crash) ∧
  (pack o = NULL → g_slurm_auth_pack w cred buf s = Crash) ∧
  (unpack o = NULL → g_slurm_auth_unpack w cred buf s = Crash) ∧
  (print o = NULL → g_slurm_auth_print w cred buf s = Crash).
Proof.
  intros Hg Hx o. subst o.
  pose proof (λ A k d, @g_dispatch A w s x k d Hg Hx) as D.
  repeat split; intros Hnull; (etrans; [apply D|]); by rewrite Hnull.
Qed.

Lemma g_bindings_null_slot_witness :
  g_slurm_auth_verify world_complete 77 state_stale = Crash ∧
  g_slurm_auth_print world_incomplete 77 88 state_partial = Crash.
Proof.
  split.
  - pose proof (g_bindings_null_slot world_complete state_stale
                  (mk_context "auth/none" 300 PLUGIN_INVALID_HANDLE ops_zero) 77 88 5) as H.
    destruct H as (_ & _ & _ & Hv & _); [vm_compute; discriminate|reflexivity|].
    by apply Hv.
  - pose proof (g_bindings_null_slot world_incomplete state_partial
                  (mk_context "auth/none" 300 500 ops_partial) 77 88 5) as H.
    destruct H as (_ & _ & _ & _ & _ & _ & _ & _ & Hp); [vm_compute; discriminate|reflexivity|].
    by apply Hp.
Defined.

(** ** Life cycle of explicit contexts *)

(** X12. [slurm_auth_context_destroy] on an allocated context succeeds
    exactly when the context has no rack or the rack can be released.
    On success the context's cell, and only that cell, is freed; on
    failure the code is [SLURM_ERROR] and the heap is unchanged. Either
    way the global pointer and the configuration cache are untouched,
    and [plugrack_destroy] is called once if the context has a rack and
    not at all otherwise. *)
Theorem slurm_auth_context_destroy_outcome (w : World) (c : ptr) (s : State)
    (x : slurm_auth_context) :
  heap s !! c = Some x →
  ∃ rc s', slurm_auth_context_destroy w c s = Ret rc s' ∧
    (rc = SLURM_SUCCESS ↔
       plugin_list x = NULL ∨ w_plugrack_destroy w (plugin_list x) = SLURM_SUCCESS) ∧
    (rc = SLURM_SUCCESS → heap s' = delete c (heap s)) ∧
    (rc ≠ SLURM_SUCCESS → rc = SLURM_ERROR ∧ heap s' = heap s) ∧
    g_context s' = g_context s ∧ conf s' = conf s ∧
    (plugin_list x = NULL → trace s' = trace s) ∧
    (plugin_list x ≠ NULL →
       trace s' = trace s ++
         [ev_plugrack_destroy (plugin_list x) (w_plugrack_destroy w (plugin_list x))]).
Proof.
  intros Hx. rewrite (slurm_auth_context_destroy_unfold w c s x Hx). cbv zeta.
  destruct (non_null (plugin_list x)) eqn:Hrack.
  - apply non_null_true in Hrack.
    destruct (Z.eqb_spec (w_plugrack_destroy w (plugin_list x)) SLURM_SUCCESS) as [Hrc|Hrc];
      cbn [negb]; eexists _, _; (split; [reflexivity|]).
    + repeat split; auto; done.
    + repeat split; try done.
      * intros [?|?]; done.
  - apply non_null_false in Hrack.
    eexists _, _. split; [reflexivity|].
    repeat split; auto; done.
Qed.

Lemma slurm_auth_context_destroy_outcome_witness :
  ∃ s', slurm_auth_context_destroy world_complete 1 state_ready = Ret SLURM_SUCCESS s' ∧
    heap s' = delete 1 (heap state_ready).
Proof.
  destruct (slurm_auth_context_destroy_outcome world_complete 1 state_ready
              (mk_context "auth/none" 300 500
                 (mk_ops 1001 1002 1003 1004 1005 1006 1007 1008 1009)) eq_refl)
    as (rc & s' & Hrun & [_ Hok] & Hfree & _).
  assert (rc = SLURM_SUCCESS) as -> by (apply Hok; right; reflexivity).
  exists s'. split; [exact Hrun|]. by apply Hfree.
Defined.

(** X13. [slurm_auth_context_create] always returns, and returns null
    exactly when the type is null or its copy fails; in that case the
    state is exactly as before, so the structure allocated before the
    failed copy has been given back. Otherwise the one change to the
    state is the new context, at a non-null address that was free. No
    outside call is made and the statics are not touched. *)
Theorem slurm_auth_context_create_frame (w : World) (type : option string) (s : State) :
  ∃ c s', slurm_auth_context_create w type s = Ret c s' ∧
    (c = NULL ↔ type = None ∨ w_strdup_ok w = false) ∧
    (c = NULL → s' = s) ∧
    (c ≠ NULL →
       heap s !! c = None ∧
       ∃ t, type = Some t ∧
         s' = poke c (mk_context t NULL PLUGIN_INVALID_HANDLE ops_zero) s) ∧
    g_context s' = g_context s ∧ conf s' = conf s ∧ trace s' = trace s.
Proof.
  destruct type as [t|].
  2:{ exists NULL, s. split; [reflexivity|]. repeat split; auto; done. }
  rewrite slurm_auth_context_create_unfold. cbv zeta.
  destruct (xmalloc_fresh s) as [Hnn Hfresh].
  destruct (w_strdup_ok w); eexists _, _; (split; [reflexivity|]).
  - repeat split; try done.
    + intros [?|?]; done.
    + by exists t.
  - repeat split; auto; done.
Qed.

(** X14. Contexts are independent objects. Two contexts created one
    after the other live at different addresses, each holding its own
    type string; destroying the second succeeds and leaves the first as
    it was. *)
Theorem slurm_auth_contexts_coexist (w : World) (t1 t2 : string) (s : State) :
  w_strdup_ok w = true →
  ∃ c1 s1 c2 s2,
    slurm_auth_context_create w (Some t1) s = Ret c1 s1 ∧
    slurm_auth_context_create w (Some t2) s1 = Ret c2 s2 ∧
    c1 ≠ NULL ∧ c2 ≠ NULL ∧ c1 ≠ c2 ∧
    heap s2 !! c1 = Some (mk_context t1 NULL PLUGIN_INVALID_HANDLE ops_zero) ∧
    heap s2 !! c2 = Some (mk_context t2 NULL PLUGIN_INVALID_HANDLE ops_zero) ∧
    ∀ w', slurm_auth_context_destroy w' c2 s2 = Ret SLURM_SUCCESS s1.
Proof.
  intros Hdup.
  pose proof (slurm_auth_context_create_unfold w t1 s) as H1. cbv zeta in H1.
  rewrite Hdup in H1.
  destruct (xmalloc_fresh s) as [Hnn1 Hfresh1].
  set (c1 := fresh _) in *. set (s1 := poke c1 _ s) in *.
  pose proof (slurm_auth_context_create_unfold w t2 s1) as H2. cbv zeta in H2.
  rewrite Hdup in H2.
  destruct (xmalloc_fresh s1) as [Hnn2 Hfresh2].
  set (c2 := fresh ({[NULL]} ∪ dom (heap s1))) in *. set (s2 := poke c2 _ s1) in *.
  assert (c1 ≠ c2) as Hne.
  { intros E. rewrite <- E in Hfresh2. unfold s1 in Hfresh2.
    by rewrite poke_lookup in Hfresh2. }
  exists c1, s1, c2, s2.
  split; [exact H1|]. split; [exact H2|].
  split; [exact Hnn1|]. split; [exact Hnn2|]. split; [exact Hne|].
  split.
  { unfold s2. cbn [heap poke]. rewrite lookup_insert_ne by done.
    apply (poke_lookup c1 _ s). }
  split; [apply poke_lookup|].
  intros w'.
  rewrite (slurm_auth_context_destroy_unfold w' c2 s2 _ (poke_lookup _ _ _)).
  cbn [plugin_list]. change (non_null NULL) with false. cbv iota.
  unfold s2. by rewrite release_poke_fresh.
Qed.

Lemma slurm_auth_contexts_coexist_witness :
  ∃ c1 s1 c2 s2,
    slurm_auth_context_create world_complete (Some "auth/none") initial_state = Ret c1 s1 ∧
    slurm_auth_context_create world_complete (Some "auth/munge") s1 = Ret c2 s2 ∧
    c1 ≠ c2.
Proof.
  destruct (slurm_auth_contexts_coexist world_complete "auth/none" "auth/munge"
              initial_state eq_refl)
    as (c1 & s1 & c2 & s2 & H1 & H2 & _ & _ & Hne & _).
  by exists c1, s1, c2, s2.
Defined.

(** ** The configuration cache, once the port is known *)

(** X15. Once the cached [slurmd_port] is non-zero the two getters do
    not interfere and never read the configuration: called in either
    order they leave the same state, with the trace as it was and both
    values cached, and from that state every call of either getter, in
    any world, returns the cached value and changes nothing. *)
Theorem conf_getters_settle (w1 w2 : World) (s : State) :
  slurmd_port (conf s) ≠ 0 →
  ∃ v d s',
    (get_auth_type w1 ≫= λ _, get_plugin_dir w2) s = Ret (Some d) s' ∧
    (get_plugin_dir w2 ≫= λ _, get_auth_type w1) s = Ret (Some v) s' ∧
    v = default "auth/none" (authtype (conf s)) ∧
    d = default "/usr/local/lib" (plugindir (conf s)) ∧
    s' = mk_state (g_context s) (mk_conf (slurmd_port (conf s)) (Some d) (Some v))
           (heap s) (trace s) ∧
    ∀ w, get_auth_type w s' = Ret (Some v) s' ∧ get_plugin_dir w s' = Ret (Some d) s'.
Proof.
  intros Hport. apply Z.eqb_neq in Hport.
  assert (∀ w g p d a h t, (p =? 0) = false →
            get_auth_type w (mk_state g (mk_conf p d a) h t)
            = Ret (Some (default "auth/none" a))
                (mk_state g (mk_conf p d (Some (default "auth/none" a))) h t)) as Ha.
  { intros w g p d a h t Hp. rewrite get_auth_type_unfold. cbn. rewrite Hp.
    by destruct a. }
  assert (∀ w g p d a h t, (p =? 0) = false →
            get_plugin_dir w (mk_state g (mk_conf p d a) h t)
            = Ret (Some (default "/usr/local/lib" d))
                (mk_state g (mk_conf p (Some (default "/usr/local/lib" d)) a) h t)) as Hd.
  { intros w g p d a h t Hp. rewrite get_plugin_dir_unfold. cbn. rewrite Hp.
    by destruct d. }
  destruct s as [g [p d a] h t]. cbn [conf slurmd_port authtype plugindir] in *.
  eexists _, _, _.
  split.
  { rewrite (bind_Ret _ _ _ _ _ (Ha w1 g p d a h t Hport)).
    apply (Hd w2 g p d _ h t Hport). }
  split.
  { rewrite (bind_Ret _ _ _ _ _ (Hd w2 g p d a h t Hport)).
    apply (Ha w1 g p _ a h t Hport). }
  split; [reflexivity|]. split; [reflexivity|]. split; [reflexivity|].
  intros w. split.
  - apply (Ha w g p _ (Some _) h t Hport).
  - apply (Hd w g p (Some _) _ h t Hport).
Qed.

Lemma conf_getters_settle_witness :
  ∃ s',
    (get_auth_type world_complete ≫= λ _, get_plugin_dir world_rereads)
      (mk_state NULL (mk_conf 7003 None None) ∅ []) = Ret (Some "/usr/local/lib") s' ∧
    conf s' = conf_cached ∧ trace s' = [].
Proof.
  destruct (conf_getters_settle world_complete world_rereads
              (mk_state NULL (mk_conf 7003 None None) ∅ []))
    as (v & d & s' & Hrun & _ & -> & -> & -> & _); [vm_compute; discriminate|].
  eexists. split; [exact Hrun|]. split; reflexivity.
Defined.

(** ** Composition: creation, resolution and dispatch *)

Lemma Ret_inj {A} (a a' : A) (s s' : State) : Ret a s = Ret a' s' → a = a' ∧ s = s'.
Proof. by intros [= -> ->]. Qed.

(** X16. A context straight from [slurm_auth_context_create] dispatches
    nothing: every explicit-context binding on it, with whatever
    arguments, returns its sentinel and leaves the state as it is. *)
Theorem c_bindings_after_create (w w' : World) (t : string) (s : State)
    (cred buf secs : ptr) :
  w_strdup_ok w = true →
  ∃ c s', slurm_auth_context_create w (Some t) s = Ret c s' ∧ c ≠ NULL ∧
    c_slurm_auth_alloc w' c s' = Ret NULL s' ∧
    c_slurm_auth_free w' c cred s' = Ret () s' ∧
    c_slurm_auth_activate w' c cred secs s' = Ret SLURM_ERROR s' ∧
    c_slurm_auth_verify w' c cred s' = Ret SLURM_ERROR s' ∧
    c_slurm_auth_get_uid w' c cred s' = Ret SLURM_AUTH_NOBODY s' ∧
    c_slurm_auth_get_gid w' c cred s' = Ret SLURM_AUTH_NOBODY s' ∧
    c_slurm_auth_pack w' c cred buf s' = Ret () s' ∧
    c_slurm_auth_unpack w' c cred buf s' = Ret SLURM_ERROR s' ∧
    c_slurm_auth_print w' c cred buf s' = Ret () s'.
Proof.
  intros Hdup.
  pose proof (slurm_auth_context_create_unfold w t s) as Hrun. cbv zeta in Hrun.
  rewrite Hdup in Hrun.
  destruct (xmalloc_fresh s) as [Hnn _].
  eexists _, _. split; [exact Hrun|]. split; [exact Hnn|].
  apply (c_bindings_on_new_context w' _ _ cred buf secs _ (poke_lookup _ _ _)).
  reflexivity.
Qed.

Lemma c_bindings_after_create_witness :
  ∃ c s', slurm_auth_context_create world_complete (Some "auth/none") initial_state
            = Ret c s' ∧
    c_slurm_auth_verify world_complete c 77 s' = Ret SLURM_ERROR s' ∧
    c_slurm_auth_get_uid world_complete c 77 s' = Ret SLURM_AUTH_NOBODY s'.
Proof.
  destruct (c_bindings_after_create world_complete world_complete "auth/none"
              initial_state 77 88 5 eq_refl)
    as (c & s' & Hrun & _ & _ & _ & _ & Hv & Hu & _).
  by exists c, s'.
Defined.

(** X17. A failed resolution can be retried on the same context. After
    [slurm_auth_get_ops] has returned null on an allocated context, a
    later [slurm_auth_get_ops] on it, in a world where a rack can be
    created, every rack has a plugin of the context's type and every
    plugin resolves the nine names, returns a fully populated table. *)
Theorem slurm_auth_get_ops_retry (w w2 : World) (c : ptr) (s s' : State)
    (x : slurm_auth_context) :
  heap s !! c = Some x →
  slurm_auth_get_ops w c s = Ret None s' →
  w_plugrack_create w2 ≠ NULL →
  (∀ rack, rack ≠ NULL →
     w_plugrack_use_by_type w2 rack (auth_type x) ≠ PLUGIN_INVALID_HANDLE) →
  (∀ plug, (plugin_get_syms w2 plug syms).1 = n_syms) →
  ∃ o s'', slurm_auth_get_ops w2 c s' = Ret (Some o) s'' ∧
    populated o = 9%nat ∧ ops <$> heap s'' !! c = Some o.
Proof.
  intros Hx Hfail Hrack Hplug Hsyms.
  destruct (slurm_auth_get_ops_summary w c s x Hx) as (s1 & Hrun & Hh & _).
  cbv zeta in *. rewrite Hfail in Hrun. injection Hrun as _ <-.
  set (x' := mk_context _ _ _ _) in Hh.
  assert (heap s' !! c = Some x') as Hx' by (rewrite Hh; apply lookup_insert_eq).
  destruct (slurm_auth_get_ops_summary w2 c s' x' Hx') as (s'' & Hrun2 & Hh2 & _).
  cbv zeta in *. cbn [auth_type x'] in *.
  set (rack := if non_null (plugin_list x') then _ else _) in *.
  assert (rack ≠ NULL) as Hr.
  { unfold rack. destruct (non_null (plugin_list x')) eqn:E; [|exact Hrack].
    by apply non_null_true. }
  specialize (Hplug rack Hr).
  set (plug := w_plugrack_use_by_type w2 rack _) in *.
  specialize (Hsyms plug).
  destruct (plugin_get_syms_count w2 plug) as [Hcount _]. cbv zeta in Hcount.
  apply non_null_true in Hr, Hplug. rewrite Hr, Hplug in *. cbn [andb] in *.
  assert (((plugin_get_syms w2 plug syms).1 <? n_syms) = false) as Hlt
    by (apply Z.ltb_ge; lia).
  rewrite Hlt in Hrun2. cbn [negb] in Hrun2.
  eexists _, s''. split; [exact Hrun2|]. split.
  - apply Nat2Z.inj. rewrite <- Hcount, Hsyms. reflexivity.
  - rewrite Hh2, lookup_insert_eq. reflexivity.
Qed.

Lemma slurm_auth_get_ops_retry_witness :
  ∃ s' o s'',
    slurm_auth_get_ops world_no_plugin 1 state_stale = Ret None s' ∧
    slurm_auth_get_ops world_complete 1 s' = Ret (Some o) s'' ∧
    populated o = 9%nat.
Proof.
  assert (∃ s', slurm_auth_get_ops world_no_plugin 1 state_stale = Ret None s')
    as [s' Hfail] by (eexists; vm_compute; reflexivity).
  destruct (slurm_auth_get_ops_retry world_no_plugin world_complete 1 state_stale s'
              (mk_context "auth/none" 300 PLUGIN_INVALID_HANDLE ops_zero) eq_refl Hfail)
    as (o & s'' & Hrun & Hfull & _).
  - vm_compute. discriminate.
  - intros rack _. vm_compute. discriminate.
  - intros plug. vm_compute. reflexivity.
  - by exists s', o, s''.
Defined.

(** X18. Resolution is repeatable. When [slurm_auth_get_ops] has
    returned a table for an allocated context, running it again in the
    same world returns the same table and leaves the heap and the
    configuration cache as they are: the rack is reused and the context
    keeps its plugin and its table. *)
Theorem slurm_auth_get_ops_again (w : World) (c : ptr) (s s' : State)
    (x : slurm_auth_context) (o : slurm_auth_ops_t) :
  heap s !! c = Some x →
  slurm_auth_get_ops w c s = Ret (Some o) s' →
  ∃ s'', slurm_auth_get_ops w c s' = Ret (Some o) s'' ∧
    heap s'' = heap s' ∧ conf s'' = conf s' ∧ g_context s'' = g_context s'.
Proof.
  intros Hx Hok.
  destruct (slurm_auth_get_ops_summary w c s x Hx) as (s1 & Hrun & Hh & _).
  cbv zeta in *.
  set (rack := if non_null (plugin_list x) then _ else _) in *.
  set (plug := w_plugrack_use_by_type w rack _) in *.
  set (r := plugin_get_syms w plug syms) in *.
  rewrite Hok in Hrun. apply Ret_inj in Hrun as [Hres <-].
  destruct (non_null rack) eqn:Hr;
    [rewrite andb_true_l in *|rewrite andb_false_l in Hres; discriminate Hres].
  destruct (non_null plug) eqn:Hp;
    [rewrite andb_true_l in *|rewrite andb_false_l in Hres; discriminate Hres].
  destruct (r.1 <? n_syms) eqn:Hlt;
    [change (negb true) with false in Hres; discriminate Hres|].
  change (negb false) with true in Hres. cbv iota in Hres, Hh.
  injection Hres as Hres.
  set (x' := mk_context _ _ _ _) in Hh.
  assert (heap s' !! c = Some x') as Hx' by (rewrite Hh; apply lookup_insert_eq).
  destruct (slurm_auth_get_ops_summary w c s' x' Hx')
    as (s'' & Hrun2 & Hh2 & Hg2 & _ & Hkeep).
  cbv zeta in *.
  change (plugin_list x') with rack in *. change (auth_type x') with (auth_type x) in *.
  rewrite Hr in *. fold plug in Hrun2, Hh2, Hkeep. fold r in Hrun2, Hh2, Hkeep.
  rewrite !Hr, !Hp, !Hlt in Hrun2. rewrite !Hr, !Hp in Hh2.
  change (true && true) with true in *.
  change (true && negb false) with true in Hrun2. cbv iota in Hrun2, Hh2.
  exists s''. split; [by rewrite Hrun2, Hres|].
  split.
  { rewrite Hh2. apply insert_id. exact Hx'. }
  split; [|exact Hg2].
  apply Hkeep. by apply non_null_true.
Qed.

Lemma slurm_auth_get_ops_again_witness :
  ∃ s' s'',
    slurm_auth_get_ops world_complete 1 state_stale
      = Ret (Some (mk_ops 1001 1002 1003 1004 1005 1006 1007 1008 1009)) s' ∧
    slurm_auth_get_ops world_complete 1 s'
      = Ret (Some (mk_ops 1001 1002 1003 1004 1005 1006 1007 1008 1009)) s'' ∧
    heap s'' = heap s'.
Proof.
  assert (∃ s', slurm_auth_get_ops world_complete 1 state_stale
                = Ret (Some (mk_ops 1001 1002 1003 1004 1005 1006 1007 1008 1009)) s')
    as [s' Hok] by (eexists; vm_compute; reflexivity).
  destruct (slurm_auth_get_ops_again world_complete 1 state_stale s'
              (mk_context "auth/none" 300 PLUGIN_INVALID_HANDLE ops_zero) _ eq_refl Hok)
    as (s'' & Hrun & Hh & _).
  by exists s', s''.
Defined.

(** * The states a caller can reach *)

















(** * Global bindings while initialisation keeps failing *)

(** C3. In a world where the rack has no plugin of the configured type,
    the first global call runs [slurm_auth_init], which fails, and
    returns its degraded value; the next global calls in the same world
    find [g_context] set, skip initialisation and call through the null
    slots of the unresolved table. With a plugin that resolves eight of
    the nine names the second [alloc] does not return null: it returns
    a credential allocated through the incomplete table. *)
Theorem g_bindings_after_failed_init :
  g_slurm_auth_verify world_no_plugin 77 initial_state = Ret SLURM_ERROR state_stale ∧
  g_slurm_auth_verify world_no_plugin 77 state_stale = Crash ∧
  g_slurm_auth_alloc world_no_plugin state_stale = Crash ∧
  g_slurm_auth_get_uid world_no_plugin 77 state_stale = Crash ∧
  g_slurm_auth_free world_no_plugin 77 state_stale = Crash ∧
  g_slurm_auth_alloc world_incomplete initial_state = Ret NULL state_partial ∧
  g_slurm_auth_alloc world_incomplete state_partial
    = Ret 7000 (logged (ev_call 1001 []) state_partial) ∧
  g_slurm_auth_print world_incomplete 77 88 state_partial = Crash.
Proof. repeat split; vm_compute; reflexivity. Qed.

(** * Concurrent first use *)

(** [slurm_auth_init] is its opening test followed by the rest. *)
Lemma slurm_auth_init_split (w : World) (s : State) :
  slurm_auth_init w s = (set ← slurm_auth_init_test; slurm_auth_init_rest w set) s.
Proof. reflexivity. Qed.

(** [slurm_auth_init] twice in a row is the order test, rest, test,
    rest of the same four steps. *)
Lemma slurm_auth_init_twice_split (w : World) (s : State) :
  slurm_auth_init_twice w s =
    (a ← slurm_auth_init_test; ra ← slurm_auth_init_rest w a;
     b ← slurm_auth_init_test; rb ← slurm_auth_init_rest w b;
     mret (ra, rb)) s.
Proof. reflexivity. Qed.

(** C8. Two threads that both make the opening test of
    [slurm_auth_init] before either goes on each construct a context:
    two contexts are allocated, two racks are created and the plugin's
    symbols are resolved twice, where the same two calls one after the
    other allocate one context, create one rack and resolve once. Both
    calls return [SLURM_SUCCESS] and [g_context] ends up pointing at
    the second context. *)
Theorem slurm_auth_init_race_constructs_twice :
  constructions (slurm_auth_init_race world_complete initial_state)
    = Some (2, 2, 2)%nat ∧
  constructions (slurm_auth_init_twice world_complete initial_state)
    = Some (1, 1, 1)%nat ∧
  ∃ s', slurm_auth_init_race world_complete initial_state
          = Ret (SLURM_SUCCESS, SLURM_SUCCESS) s' ∧
        g_context s' = 2 ∧ is_Some (heap s' !! 1) ∧ is_Some (heap s' !! 2).
Proof.
  split; [vm_compute; reflexivity|]. split; [vm_compute; reflexivity|].
  eexists. split; [vm_compute; reflexivity|].
  split; [reflexivity|]. split; vm_compute; eauto.
Qed.
